(** * The inet-mvpn route table of the BGP control plane

    A shallow embedding of [src/bgp/inetmvpn/inetmvpn_table.cc]
    (class [InetMVpnTable]): partition hashing, cross-table route
    replication, RIB export and the life cycle of the multicast tree
    manager.

    Conventions.
    - Machine integers are [Z]; an [Ip4Address] is its 32-bit host-order
      value, a [RouteDistinguisher] its 64-bit value.
    - A C++ pointer to an object that is only read is modelled by the
      object; a pointer that is compared for identity is modelled by an
      address ([RoutePtr], [TablePtr], [IPeer]); a pointer that may be
      NULL is an [option].
    - A failed [assert] or a dereference of NULL ends the call with
      [Fault]; everything else returns [Ok]. *)

From stdpp Require Import base decidable option list gmap strings.
From Stdlib Require Import ZArith Lia.

Local Open Scope Z_scope.

(** ** Outcomes of a call *)

Inductive FaultKind :=
  | AssertFamily        (* assert(src_table->family() == Address::INETMVPN) *)
  | AssertRoute         (* assert(mroute) *)
  | AssertRemove        (* assert(success) after RemoveSecondaryPath *)
  | AssertTreeManager   (* assert(!tree_manager_) *)
  | NullDeref           (* a NULL pointer is dereferenced *)
  | NoPartition.        (* the partition vector is indexed out of range *)

Inductive Outcome (A : Type) :=
  | Ok (a : A)
  | Fault (k : FaultKind).
Arguments Ok {A} a.
Arguments Fault {A} k.

#[global] Instance Outcome_ret : MRet Outcome := fun _ a => Ok a.
#[global] Instance Outcome_bind : MBind Outcome := fun _ _ f m =>
  match m with
  | Ok a => f a
  | Fault k => Fault k
  end.

#[global] Instance Outcome_fmap : FMap Outcome := fun _ _ f m =>
  match m with
  | Ok a => Ok (f a)
  | Fault k => Fault k
  end.

Definition assert (b : bool) (k : FaultKind) : Outcome unit :=
  if b then Ok tt else Fault k.

(** [p->...] for a pointer [p] that may be NULL. *)
Definition deref {A} (p : option A) : Outcome A :=
  match p with
  | Some a => Ok a
  | None => Fault NullDeref
  end.

#[global] Instance FaultKind_eq_dec : EqDecision FaultKind.
Proof. solve_decision. Defined.

(** ** Data model *)

Definition Ip4Address := Z.
Definition to_ulong (a : Ip4Address) : Z := a.

Definition RouteDistinguisher := Z.
Definition null_rd : RouteDistinguisher := 0.

(** Modelled from the spec: the declaration of [InetMVpnPrefix]
    (inetmvpn_route.h is not part of the sources).  A prefix has a route
    distinguisher, a group and a source address, and a route type with
    the variant [NativeRoute] next to the replicated-route variants. *)
Inductive RouteType :=
  | NativeRoute
  | ReplicatedRoute (tag : Z).

Record InetMVpnPrefix := mkPrefix {
  type : RouteType;
  route_distinguisher : RouteDistinguisher;
  group : Ip4Address;
  source : Ip4Address;
}.

Definition set_route_distinguisher (p : InetMVpnPrefix)
    (rd : RouteDistinguisher) : InetMVpnPrefix :=
  {| type := type p; route_distinguisher := rd;
     group := group p; source := source p |}.

Record Ip4Prefix := mkIp4Prefix {
  ip4_addr : Ip4Address;
  prefixlen : Z;
}.

#[global] Instance RouteType_eq_dec : EqDecision RouteType.
Proof. solve_decision. Defined.
#[global] Instance InetMVpnPrefix_eq_dec : EqDecision InetMVpnPrefix.
Proof. solve_decision. Defined.

(** Identities of objects that the code compares by pointer. *)
Definition RoutePtr := Z.
Definition TablePtr := string.
Definition IPeer := Z.

Definition ExtCommunityPtr := list Z.

(** Modelled from the spec: the attribute database (bgp_attr.cc is not
    part of the sources).  Attributes are immutable and interned: the
    database hands out one shared handle per attribute content, so two
    handles are the same pointer exactly when their contents agree.  A
    [BgpAttrPtr] is therefore the interned content itself. *)
Record BgpAttr := mkAttr {
  source_rd : RouteDistinguisher;
  ext_community : ExtCommunityPtr;
  attr_rest : Z;
}.
Definition BgpAttrPtr := BgpAttr.

#[global] Instance BgpAttr_eq_dec : EqDecision BgpAttr.
Proof. solve_decision. Defined.

(** Modelled from the spec: [BgpAttrDB::ReplaceExtCommunityAndLocate],
    "intern attribute with extended-community replaced by X, return
    shared handle". *)
Definition ReplaceExtCommunityAndLocate (attr : BgpAttrPtr)
    (community : ExtCommunityPtr) : BgpAttrPtr :=
  {| source_rd := source_rd attr; ext_community := community;
     attr_rest := attr_rest attr |}.

Definition PathSource := Z.

(** The replication provenance a [BgpSecondaryPath] adds to a [BgpPath];
    both pointers are NULL until [SetReplicateInfo]. *)
Record ReplicateInfo := mkReplicateInfo {
  src_table_ : option TablePtr;
  src_rt_ : option RoutePtr;
}.

Record BgpPath := mkPath {
  GetPeer : option IPeer;
  GetPathId : Z;
  GetSource : PathSource;
  GetAttr : BgpAttrPtr;
  GetFlags : Z;
  GetLabel : Z;
  secondary : option ReplicateInfo;   (* [Some] for a BgpSecondaryPath *)
}.

#[global] Instance ReplicateInfo_eq_dec : EqDecision ReplicateInfo.
Proof. solve_decision. Defined.
#[global] Instance BgpPath_eq_dec : EqDecision BgpPath.
Proof. solve_decision. Defined.

Definition BgpSecondaryPath (peer : option IPeer) (path_id : Z)
    (src : PathSource) (attr : BgpAttrPtr) (flags label : Z) : BgpPath :=
  {| GetPeer := peer; GetPathId := path_id; GetSource := src;
     GetAttr := attr; GetFlags := flags; GetLabel := label;
     secondary := Some {| src_table_ := None; src_rt_ := None |} |}.

Definition SetReplicateInfo (p : BgpPath) (table : TablePtr)
    (rt : RoutePtr) : BgpPath :=
  {| GetPeer := GetPeer p; GetPathId := GetPathId p;
     GetSource := GetSource p; GetAttr := GetAttr p;
     GetFlags := GetFlags p; GetLabel := GetLabel p;
     secondary := match secondary p with
                  | Some _ => Some {| src_table_ := Some table;
                                      src_rt_ := Some rt |}
                  | None => None
                  end |}.

(** A route object: its own address ([this]), the prefix it is keyed
    by, the deletion mark of its [DBEntry] and its path list, best path
    first. *)
Record InetMVpnRoute := mkRoute {
  rt_this : RoutePtr;
  GetPrefix : InetMVpnPrefix;
  IsDeleted : bool;
  rt_paths : list BgpPath;
}.

#[global] Instance InetMVpnRoute_eq_dec : EqDecision InetMVpnRoute.
Proof. solve_decision. Defined.

Definition new_InetMVpnRoute (this : RoutePtr) (prefix : InetMVpnPrefix)
    : InetMVpnRoute :=
  {| rt_this := this; GetPrefix := prefix; IsDeleted := false;
     rt_paths := [] |}.

(** A [BgpRoute *] / [Route *] / [DBEntry *] as the table receives it:
    the dynamic type decides what [dynamic_cast<InetMVpnRoute *>]
    yields. *)
Inductive BgpRoute :=
  | InetMVpn (r : InetMVpnRoute)
  | OtherRoute (this : RoutePtr).

Definition dynamic_cast_InetMVpnRoute (rt : BgpRoute)
    : option InetMVpnRoute :=
  match rt with
  | InetMVpn r => Some r
  | OtherRoute _ => None
  end.

Definition route_ptr (rt : BgpRoute) : RoutePtr :=
  match rt with
  | InetMVpn r => rt_this r
  | OtherRoute a => a
  end.

Record RequestKey := mkRequestKey {
  prefix : InetMVpnPrefix;
}.

(** ** Searching the intrusive containers

    The first element a loop over the container meets with the wanted
    key, and the container with that element unlinked. *)

Fixpoint find_first {A} (P : A -> Prop) `{forall x, Decision (P x)}
    (l : list A) : option A :=
  match l with
  | [] => None
  | x :: l' => if decide (P x) then Some x else find_first P l'
  end.

Fixpoint remove_first {A} (P : A -> Prop) `{forall x, Decision (P x)}
    (l : list A) : option (list A) :=
  match l with
  | [] => None
  | x :: l' =>
      if decide (P x) then Some l' else (x ::.) <$> remove_first P l'
  end.

(** ** Partitions and tables *)

(** A [DBTablePartition]: the intrusive tree of the routes it owns,
    searched by the prefix each route carries, and the list of change
    notifications raised on it. *)
Record DBTablePartition := mkPartition {
  tree : list InetMVpnRoute;
  change_list : list RoutePtr;
}.

Inductive Family := INET | INETVPN | INETMVPN | EVPN | ERMVPN.

#[global] Instance Family_eq_dec : EqDecision Family.
Proof. solve_decision. Defined.

Record RoutingInstance := mkInstance {
  instance_name : string;
  IsDefaultRoutingInstance : bool;
}.

(** The [BgpTable] base-class part of a table. *)
Record BgpTable := mkBgpTable {
  name : TablePtr;
  family : Family;
  rtinstance_ : option RoutingInstance;
  partitions : list DBTablePartition;
}.

Definition RibPeerSet := Z.
Definition test (s : RibPeerSet) (i : Z) : bool := Z.testbit s i.
Definition set (s : RibPeerSet) (i : Z) : RibPeerSet :=
  Z.lor s (Z.shiftl 1 i).

Record UpdateInfo := mkUpdateInfo {
  roattr : BgpAttrPtr;
  target : RibPeerSet;
}.
Definition UpdateInfoSList := list UpdateInfo.

Definition set_target (u : UpdateInfo) (i : Z) : UpdateInfo :=
  {| roattr := roattr u; target := set (target u) i |}.

(** The multicast tree manager a table owns.  Its tree computation is
    not part of this file: [tm_update_info] is whatever the manager
    answers to [GetUpdateInfo]. *)
Record McastTreeManager := mkTreeManager {
  tm_initialized : bool;
  tm_deleted : bool;                  (* deleter()->IsDeleted() *)
  tm_update_info : InetMVpnRoute -> option UpdateInfo;
}.

Definition Initialize (tm : McastTreeManager) : McastTreeManager :=
  {| tm_initialized := true; tm_deleted := tm_deleted tm;
     tm_update_info := tm_update_info tm |}.

Record InetMVpnTable := mkTable {
  base : BgpTable;
  tree_manager_ : option McastTreeManager;
}.

(** Modelled from the spec: [RibOut] (bgp_ribout.cc is not part of the
    sources): whether the channel uses the generic protocol encoding,
    and the peers registered on it with their bit index.  The index of
    an unregistered peer is never asked for. *)
Record RibOut := mkRibOut {
  IsEncodingBgp : bool;
  ribout_peers : gmap IPeer Z;
}.

Definition IsRegistered (ribout : RibOut) (peer : IPeer) : bool :=
  bool_decide (is_Some (ribout_peers ribout !! peer)).
Definition GetPeerIndex (ribout : RibOut) (peer : IPeer) : Z :=
  default 0 (ribout_peers ribout !! peer).

(** What the table takes from the rest of the daemon. *)
Class Collaborators := {
  (** [DB::PartitionCount()] *)
  PartitionCount : Z;
  (** [boost::hash_value] on an unsigned long *)
  hash_value : Z -> Z;
  (** the ranking rule of the path list: [PathSelection p q] when [p]
      is to stand before [q] *)
  PathSelection : BgpPath -> BgpPath -> bool;
  (** [BgpTable::GetUpdateInfo], the generic update-info computation *)
  GetUpdateInfo : BgpTable -> RibOut -> BgpRoute -> RibPeerSet ->
                  option UpdateInfo;
  (** [BgpObjectFactory::Create<McastTreeManager>(table)] *)
  Create_McastTreeManager : BgpTable -> McastTreeManager;
}.

Section Table.
Context `{Collaborators}.

(** ** Hashing (lines 21-23, 42-54) *)

Definition HashFunction (prefix : InetMVpnPrefix) : Z :=
  hash_value (to_ulong (group prefix)).

(** Modelled from the spec: [InetTable::HashFunction] (inet_table.cc is
    not part of the sources); the hash is "defined once over the
    group-address representation and reused for both entry points". *)
Definition InetTable_HashFunction (prefix : Ip4Prefix) : Z :=
  hash_value (to_ulong (ip4_addr prefix)).

(** [Hash] on a [DBEntry] *)
Definition Hash (entry : InetMVpnRoute) : Z :=
  let rt_entry := entry in
  let inetmvpnprefix := GetPrefix rt_entry in
  let value := HashFunction inetmvpnprefix in
  value mod PartitionCount.

(** [Hash] on a [DBRequestKey] *)
Definition Hash_key (key : RequestKey) : Z :=
  let rkey := key in
  let prefix := mkIp4Prefix (group (prefix rkey)) 32 in
  let value := InetTable_HashFunction prefix in
  value mod PartitionCount.

(** ** Allocation and lookup (lines 25-33, 56-61) *)

Definition new_InetMVpnTable (name : TablePtr) : InetMVpnTable :=
  {| base := {| name := name; family := INETMVPN; rtinstance_ := None;
                partitions := replicate (Z.to_nat PartitionCount)
                                (mkPartition [] []) |};
     tree_manager_ := None |}.

Definition AllocEntry (this : RoutePtr) (key : RequestKey) : InetMVpnRoute :=
  let pfxkey := key in
  new_InetMVpnRoute this (prefix pfxkey).

(** Modelled from the spec: the operations of [DBTablePartition]
    (db_table_partition.cc is not part of the sources), "find, insert
    ... and a notify operation that triggers re-export scheduling".

    [DBTablePartition::Find]: the entry of the tree with the key's
    prefix, deleted or not. *)
Definition Find (rtp : DBTablePartition) (rt_key : InetMVpnPrefix)
    : option InetMVpnRoute :=
  find_first (fun r => GetPrefix r = rt_key) (tree rtp).

Definition TableFind (rtp : DBTablePartition) (key : RequestKey)
    : option InetMVpnRoute :=
  let pfxkey := key in
  let rt_key := new_InetMVpnRoute 0 (prefix pfxkey) in
  Find rtp (GetPrefix rt_key).

(** [DBTablePartition::Add] *)
Definition Add (rtp : DBTablePartition) (r : InetMVpnRoute)
    : DBTablePartition :=
  {| tree := tree rtp ++ [r]; change_list := change_list rtp |}.

(** [DBTablePartition::Notify] *)
Definition Notify (rtp : DBTablePartition) (r : InetMVpnRoute)
    : DBTablePartition :=
  {| tree := tree rtp; change_list := change_list rtp ++ [rt_this r] |}.

(** The route objects live in the tree and the code changes them through
    a pointer.  [Store] writes the changed object back over the entry
    [Find] gave for its prefix. *)
Fixpoint store (r' : InetMVpnRoute) (l : list InetMVpnRoute)
    : list InetMVpnRoute :=
  match l with
  | [] => []
  | r :: l' =>
      if decide (GetPrefix r = GetPrefix r') then r' :: l'
      else r :: store r' l'
  end.

Definition Store (rtp : DBTablePartition) (r' : InetMVpnRoute)
    : DBTablePartition :=
  {| tree := store r' (tree rtp); change_list := change_list rtp |}.

(** [routing_instance()->IsDefaultRoutingInstance()] *)
Definition IsDefault (t : BgpTable) : Outcome bool :=
  ri ← deref (rtinstance_ t);
  Ok (IsDefaultRoutingInstance ri).

(** [DBTable::GetTablePartition] on a [DBEntry]: the partition the
    entry hashes to. *)
Definition GetTablePartition (t : BgpTable) (entry : InetMVpnRoute)
    : Outcome (nat * DBTablePartition) :=
  let idx := Z.to_nat (Hash entry) in
  match partitions t !! idx with
  | Some rtp => Ok (idx, rtp)
  | None => Fault NoPartition
  end.

Definition set_partition (t : BgpTable) (idx : nat)
    (rtp : DBTablePartition) : BgpTable :=
  {| name := name t; family := family t; rtinstance_ := rtinstance_ t;
     partitions := <[idx := rtp]> (partitions t) |}.

Definition set_base (t : InetMVpnTable) (b : BgpTable) : InetMVpnTable :=
  {| base := b; tree_manager_ := tree_manager_ t |}.

(** ** Path list of a route

    Modelled from the spec: the path operations of [BgpRoute] and
    [Route] (bgp_route.cc and route.cc are not part of the sources):
    "find path matching", "insert path", "remove path" and "best path".
    A secondary path is looked up by the arguments the table passes:
    source route, path source, peer and path id. *)

Definition secondary_match (src_rt : RoutePtr) (src : PathSource)
    (peer : option IPeer) (path_id : Z) (p : BgpPath) : Prop :=
  src_rt_ <$> secondary p = Some (Some src_rt) ∧
  GetPeer p = peer ∧ GetPathId p = path_id ∧ GetSource p = src.

#[global] Instance secondary_match_dec src_rt src peer path_id p :
  Decision (secondary_match src_rt src peer path_id p).
Proof. unfold secondary_match. apply _. Defined.

Definition FindSecondaryPath (r : InetMVpnRoute) (src_rt : RoutePtr)
    (src : PathSource) (peer : option IPeer) (path_id : Z)
    : option BgpPath :=
  find_first (secondary_match src_rt src peer path_id) (rt_paths r).

Definition set_paths (r : InetMVpnRoute) (l : list BgpPath)
    : InetMVpnRoute :=
  {| rt_this := rt_this r; GetPrefix := GetPrefix r;
     IsDeleted := IsDeleted r; rt_paths := l |}.

(** Removes the first matching secondary path; [false] when there is
    none. *)
Definition RemoveSecondaryPath (r : InetMVpnRoute) (src_rt : RoutePtr)
    (src : PathSource) (peer : option IPeer) (path_id : Z)
    : bool * InetMVpnRoute :=
  match remove_first (secondary_match src_rt src peer path_id)
          (rt_paths r) with
  | Some l => (true, set_paths r l)
  | None => (false, r)
  end.

(** Puts the path before the first path it outranks. *)
Fixpoint insert_path (p : BgpPath) (l : list BgpPath) : list BgpPath :=
  match l with
  | [] => [p]
  | q :: l' => if PathSelection p q then p :: q :: l'
               else q :: insert_path p l'
  end.

Definition InsertPath (r : InetMVpnRoute) (p : BgpPath) : InetMVpnRoute :=
  set_paths r (insert_path p (rt_paths r)).

Definition front (r : InetMVpnRoute) : option BgpPath := head (rt_paths r).
Definition BestPath (r : InetMVpnRoute) : option BgpPath := front r.

Definition ClearDelete (r : InetMVpnRoute) : InetMVpnRoute :=
  {| rt_this := rt_this r; GetPrefix := GetPrefix r;
     IsDeleted := false; rt_paths := rt_paths r |}.

(** ** Replication (lines 69-135)

    [fresh] is the address [new InetMVpnRoute] returns should the call
    allocate.  The [server] argument only gives access to the attribute
    database.  The call returns the destination route pointer, NULL as
    [None], and the table as the call leaves it. *)

Definition RouteReplicate (t : InetMVpnTable) (src_table : BgpTable)
    (src_rt : BgpRoute) (src_path : BgpPath) (community : ExtCommunityPtr)
    (fresh : RoutePtr) : Outcome (option RoutePtr * InetMVpnTable) :=
  assert (bool_decide (family src_table = INETMVPN)) AssertFamily;;
  let src_mvpn_table := src_table in
  is_default ← IsDefault (base t);
  vpn_to_vpn ← (if (is_default : bool) then Ok false
                else negb <$> IsDefault src_mvpn_table);
  if (vpn_to_vpn : bool) then Ok (None, t) else
  match dynamic_cast_InetMVpnRoute src_rt with
  | None => Fault AssertRoute
  | Some mroute =>
  if decide (type (GetPrefix mroute) = NativeRoute) then Ok (None, t) else
  let mprefix := GetPrefix mroute in
  is_default ← IsDefault (base t);
  let mprefix :=
    if (is_default : bool)
    then set_route_distinguisher mprefix (source_rd (GetAttr src_path))
    else set_route_distinguisher mprefix null_rd in
  let rt_key := new_InetMVpnRoute 0 mprefix in
  '(idx, rtp) ← GetTablePartition (base t) rt_key;
  let '(dest_route, rtp) :=
    match Find rtp (GetPrefix rt_key) with
    | None =>
        let dest_route := new_InetMVpnRoute fresh mprefix in
        (dest_route, Add rtp dest_route)
    | Some dest_route =>
        let dest_route := ClearDelete dest_route in
        (dest_route, Store rtp dest_route)
    end in
  let new_attr :=
    ReplaceExtCommunityAndLocate (GetAttr src_path) community in
  (* Create replicated path and insert it on the route *)
  let insert := fun dest_route : InetMVpnRoute =>
    let replicated_path :=
      BgpSecondaryPath (GetPeer src_path) (GetPathId src_path)
        (GetSource src_path) new_attr
        (GetFlags src_path) (GetLabel src_path) in
    let replicated_path :=
      SetReplicateInfo replicated_path (name src_table) (route_ptr src_rt) in
    let dest_route := InsertPath dest_route replicated_path in
    let rtp := Store rtp dest_route in
    (* Trigger notification only if the inserted path is selected *)
    let rtp := if decide (front dest_route = Some replicated_path)
               then Notify rtp dest_route else rtp in
    Ok (Some (rt_this dest_route),
        set_base t (set_partition (base t) idx rtp)) in
  (* Check whether peer already has a path *)
  match FindSecondaryPath dest_route (route_ptr src_rt)
          (GetSource src_path) (GetPeer src_path) (GetPathId src_path) with
  | Some dest_path =>
      if decide (new_attr ≠ GetAttr dest_path) then
        (* Update Attributes and notify (if needed) *)
        let '(success, dest_route) :=
          RemoveSecondaryPath dest_route (route_ptr src_rt)
            (GetSource src_path) (GetPeer src_path) (GetPathId src_path) in
        assert success AssertRemove;;
        insert dest_route
      else
        Ok (Some (rt_this dest_route),
            set_base t (set_partition (base t) idx rtp))
  | None => insert dest_route
  end
  end.

(** ** Export (lines 137-170)

    The call returns what [Export] returns together with the update
    list as the call leaves it. *)

Definition push_front (uinfo_slist : UpdateInfoSList) (uinfo : UpdateInfo)
    : UpdateInfoSList := uinfo :: uinfo_slist.

Definition Export (t : InetMVpnTable) (ribout : RibOut) (route : BgpRoute)
    (peerset : RibPeerSet) (uinfo_slist : UpdateInfoSList)
    : Outcome (bool * UpdateInfoSList) :=
  if IsEncodingBgp ribout then
    let bgp_route := route in
    match GetUpdateInfo (base t) ribout bgp_route peerset with
    | None => Ok (false, uinfo_slist)
    | Some uinfo => Ok (true, push_front uinfo_slist uinfo)
    end
  else
  inetmvpn_route ← deref (dynamic_cast_InetMVpnRoute route);
  if decide (type (GetPrefix inetmvpn_route) ≠ NativeRoute)
  then Ok (false, uinfo_slist) else
  match tree_manager_ t with
  | None => Ok (false, uinfo_slist)
  | Some tree_manager =>
  if tm_deleted tree_manager then Ok (false, uinfo_slist) else
  best_path ← deref (BestPath inetmvpn_route);
  match GetPeer best_path with
  | None => Ok (false, uinfo_slist)
  | Some peer =>
  if negb (IsRegistered ribout peer) then Ok (false, uinfo_slist) else
  let peerbit := GetPeerIndex ribout peer in
  if negb (test peerset peerbit) then Ok (false, uinfo_slist) else
  match tm_update_info tree_manager inetmvpn_route with
  | None => Ok (false, uinfo_slist)
  | Some uinfo =>
      let uinfo := set_target uinfo peerbit in
      Ok (true, push_front uinfo_slist uinfo)
  end
  end
  end.

(** ** Life cycle of the tree manager (lines 172-199) *)

Definition set_tree_manager (t : InetMVpnTable)
    (tm : option McastTreeManager) : InetMVpnTable :=
  {| base := base t; tree_manager_ := tm |}.

Definition CreateTreeManager (t : InetMVpnTable) : Outcome InetMVpnTable :=
  is_default ← IsDefault (base t);
  if (is_default : bool) then Ok t else
  assert (bool_decide (tree_manager_ t = None)) AssertTreeManager;;
  let tree_manager := Create_McastTreeManager (base t) in
  let tree_manager := Initialize tree_manager in
  Ok (set_tree_manager t (Some tree_manager)).

(** [Terminate] acts on the manager that [delete] then frees; the table
    keeps a NULL pointer. *)
Definition DestroyTreeManager (t : InetMVpnTable)
    : Outcome InetMVpnTable :=
  is_default ← IsDefault (base t);
  if (is_default : bool) then Ok t else
  deref (tree_manager_ t);;
  Ok (set_tree_manager t None).

Definition GetTreeManager (t : InetMVpnTable) : option McastTreeManager :=
  tree_manager_ t.

(** Modelled from the spec: [BgpTable::set_routing_instance]
    (bgp_table.h is not part of the sources) records the instance the
    table is assigned to. *)
Definition BgpTable_set_routing_instance (t : BgpTable)
    (rtinstance : RoutingInstance) : BgpTable :=
  {| name := name t; family := family t; rtinstance_ := Some rtinstance;
     partitions := partitions t |}.

Definition set_routing_instance (t : InetMVpnTable)
    (rtinstance : RoutingInstance) : Outcome InetMVpnTable :=
  let t := set_base t (BgpTable_set_routing_instance (base t) rtinstance) in
  CreateTreeManager t.

(** The two transitions of the manager, and a run of them. *)
Inductive Transition := Create | Destroy.

Definition transition (t : InetMVpnTable) (tr : Transition)
    : Outcome InetMVpnTable :=
  match tr with
  | Create => CreateTreeManager t
  | Destroy => DestroyTreeManager t
  end.

Fixpoint transitions (t : InetMVpnTable) (trs : list Transition)
    : Outcome InetMVpnTable :=
  match trs with
  | [] => Ok t
  | tr :: trs => t ← transition t tr; transitions t trs
  end.

(** ** Secondary paths of a route, per lookup key *)

(** The route of the table with the given prefix: the partition the
    prefix hashes to is searched. *)
Definition FindRoute (t : InetMVpnTable) (prefix : InetMVpnPrefix)
    : option InetMVpnRoute :=
  let rt_key := new_InetMVpnRoute 0 prefix in
  match GetTablePartition (base t) rt_key with
  | Ok (_, rtp) => Find rtp (GetPrefix rt_key)
  | Fault _ => None
  end.

(** How many secondary paths of the route [FindSecondaryPath] could
    return for the key. *)
Definition secondary_count (r : InetMVpnRoute) (src_rt : RoutePtr)
    (src : PathSource) (peer : option IPeer) (path_id : Z) : nat :=
  length (filter (secondary_match src_rt src peer path_id) (rt_paths r)).

Definition SecondaryUnique (r : InetMVpnRoute) : Prop :=
  forall src_rt src peer path_id,
    (secondary_count r src_rt src peer path_id <= 1)%nat.

Definition TableUnique (t : InetMVpnTable) : Prop :=
  forall rtp r,
    rtp ∈ partitions (base t) -> r ∈ tree rtp -> SecondaryUnique r.

(** Secondary paths with a given source table, source route, peer and
    path id, whatever their path source. *)
Definition provenance_match (src_table : TablePtr) (src_rt : RoutePtr)
    (peer : option IPeer) (path_id : Z) (p : BgpPath) : Prop :=
  secondary p = Some {| src_table_ := Some src_table;
                        src_rt_ := Some src_rt |} ∧
  GetPeer p = peer ∧ GetPathId p = path_id.

#[global] Instance provenance_match_dec src_table src_rt peer path_id p :
  Decision (provenance_match src_table src_rt peer path_id p).
Proof. unfold provenance_match. apply _. Defined.

(** The same with the path source fixed as well. *)
Definition provenance_source_match (src_table : TablePtr)
    (src_rt : RoutePtr) (src : PathSource) (peer : option IPeer)
    (path_id : Z) (p : BgpPath) : Prop :=
  provenance_match src_table src_rt peer path_id p ∧ GetSource p = src.

#[global] Instance provenance_source_match_dec src_table src_rt src peer
    path_id p :
  Decision (provenance_source_match src_table src_rt src peer path_id p).
Proof. unfold provenance_source_match. apply _. Defined.

Definition provenance_count (r : InetMVpnRoute) (src_table : TablePtr)
    (src_rt : RoutePtr) (peer : option IPeer) (path_id : Z) : nat :=
  length (filter (provenance_match src_table src_rt peer path_id)
            (rt_paths r)).

(** The tables replication can build: a table without routes, and what
    [RouteReplicate] makes of a table it can build. *)
Inductive Replicated : InetMVpnTable -> Prop :=
  | Replicated_empty t :
      Forall (fun rtp => tree rtp = []) (partitions (base t)) ->
      Replicated t
  | Replicated_step t src_table src_rt src_path community fresh r t' :
      Replicated t ->
      RouteReplicate t src_table src_rt src_path community fresh
        = Ok (r, t') ->
      Replicated t'.

End Table.

(** ** A concrete daemon to run the table in *)

Module Sample.

(** Four partitions, the identity hash of an integer, and paths ranked
    by path id. *)
#[export] Instance collaborators : Collaborators := {|
  PartitionCount := 4;
  hash_value := fun v => v;
  PathSelection := fun p q => GetPathId p <? GetPathId q;
  GetUpdateInfo := fun _ _ rt peerset =>
    match rt with
    | InetMVpn r =>
        match rt_paths r with
        | p :: _ => Some (mkUpdateInfo (GetAttr p) peerset)
        | [] => None
        end
    | OtherRoute _ => None
    end;
  Create_McastTreeManager := fun _ =>
    mkTreeManager false false (fun r =>
      match rt_paths r with
      | p :: _ => Some (mkUpdateInfo (GetAttr p) 0)
      | [] => None
      end)
|}.

Definition master := mkInstance "default-domain:default-project:ip-fabric:__default__" true.
Definition blue := mkInstance "blue" false.

Definition with_instance (t : InetMVpnTable) (ri : RoutingInstance)
    : InetMVpnTable :=
  set_base t (BgpTable_set_routing_instance (base t) ri).

Definition master_table : InetMVpnTable :=
  with_instance (new_InetMVpnTable "bgp.mvpn.0") master.
Definition blue_table : InetMVpnTable :=
  with_instance (new_InetMVpnTable "blue.mvpn.0") blue.

(* 10.1.1.1:1 as a type-1 route distinguisher *)
Definition rd_10_1_1_1_1 : RouteDistinguisher := 0x00010A0101010001.

(* group 224.1.2.3, source 192.168.1.1 *)
Definition tree_prefix : InetMVpnPrefix :=
  mkPrefix (ReplicatedRoute 1) null_rd 0xE0010203 0xC0A80101.
Definition native_prefix : InetMVpnPrefix :=
  mkPrefix NativeRoute rd_10_1_1_1_1 0xE0010203 0xC0A80101.

Definition src_route : InetMVpnRoute := mkRoute 100 tree_prefix false [].
Definition native_route : InetMVpnRoute :=
  mkRoute 101 native_prefix false [].

Definition attr0 : BgpAttr := mkAttr rd_10_1_1_1_1 [] 7.
Definition C1 : ExtCommunityPtr := [1].
Definition C2 : ExtCommunityPtr := [2].

Definition src_path : BgpPath := mkPath (Some 5) 9 1 attr0 0 16 None.

(* two paths without a peer, originated locally by two path sources *)
Definition chain_path : BgpPath := mkPath None 0 2 attr0 0 16 None.
Definition static_path : BgpPath := mkPath None 0 3 attr0 0 16 None.

(* the master table with one route, replicated from [src_route] *)
Definition dest_prefix : InetMVpnPrefix :=
  mkPrefix (ReplicatedRoute 1) rd_10_1_1_1_1 0xE0010203 0xC0A80101.
Definition replicated (p : BgpPath) (community : ExtCommunityPtr)
    : BgpPath :=
  mkPath (GetPeer p) (GetPathId p) (GetSource p)
    (mkAttr rd_10_1_1_1_1 community 7) (GetFlags p) (GetLabel p)
    (Some (mkReplicateInfo (Some "blue.mvpn.0") (Some 100))).
Definition dest_route (paths : list BgpPath) : InetMVpnRoute :=
  mkRoute 200 dest_prefix false paths.
Definition master_with (paths : list BgpPath) (changes : list RoutePtr)
    : InetMVpnTable :=
  mkTable
    (mkBgpTable "bgp.mvpn.0" INETMVPN (Some master)
       [mkPartition [] []; mkPartition [] []; mkPartition [] [];
        mkPartition [dest_route paths] changes])
    None.

Definition master_C1 : InetMVpnTable :=
  master_with [replicated src_path C1] [200].
Definition master_C2 : InetMVpnTable :=
  master_with [replicated src_path C2] [200; 200].
Definition master_chain : InetMVpnTable :=
  master_with [replicated chain_path C1] [200].
Definition master_two_sources : InetMVpnTable :=
  master_with [replicated chain_path C1; replicated static_path C1] [200].

Definition live_manager : McastTreeManager :=
  Initialize (Create_McastTreeManager (base blue_table)).
Definition blue_live : InetMVpnTable :=
  set_tree_manager blue_table (Some live_manager).

Definition native_path : BgpPath := mkPath (Some 5) 0 1 attr0 0 0 None.
Definition native_route' : InetMVpnRoute :=
  mkRoute 102 native_prefix false [native_path].

(* peer 5 is registered with bit index 2 *)
Definition xmpp_ribout : RibOut := mkRibOut false {[ 5 := 2 ]}.
Definition bgp_ribout : RibOut := mkRibOut true {[ 5 := 2 ]}.
Definition peerset : RibPeerSet := 4.

End Sample.

(** ** Shape of a table *)

Section TableShape.
Context `{Collaborators}.

(** The table has the partitions [DB::PartitionCount()] asks for. *)
Definition TableShaped (t : BgpTable) : Prop :=
  length (partitions t) = Z.to_nat PartitionCount.

(** Every route sits in the partition its prefix hashes to, and a
    partition has one route per prefix. *)
Definition TableKeyed (t : BgpTable) : Prop :=
  forall i rtp,
    partitions t !! i = Some rtp ->
    NoDup (GetPrefix <$> tree rtp)
    ∧ forall r, r ∈ tree rtp -> Z.to_nat (Hash r) = i.

(** The paths of a list that a lookup key does not answer to. *)
Definition other_paths (src_rt : RoutePtr) (src : PathSource)
    (peer : option IPeer) (path_id : Z) (l : list BgpPath) : list BgpPath :=
  filter (fun q => ¬ secondary_match src_rt src peer path_id q) l.

(** The runs of transitions in which creation and destruction take
    turns, from a manager that is present or absent. *)
Fixpoint alternates (present : bool) (trs : list Transition) : bool :=
  match trs with
  | [] => true
  | Create :: trs => negb present && alternates true trs
  | Destroy :: trs => present && alternates false trs
  end.

End TableShape.

(** Whether the table has a tree manager. *)
Definition has_tree_manager (t : InetMVpnTable) : bool :=
  match GetTreeManager t with
  | Some _ => true
  | None => false
  end.

(** ** Further tables to run the code in *)

Module Scenario.

(** The master table of [Sample] with its one route marked deleted. *)
Definition master_marked : InetMVpnTable :=
  mkTable
    (mkBgpTable "bgp.mvpn.0" INETMVPN (Some Sample.master)
       [mkPartition [] []; mkPartition [] []; mkPartition [] [];
        mkPartition
          [mkRoute 200 Sample.dest_prefix true
             [Sample.replicated Sample.src_path Sample.C1]]
          [200]])
    None.

(** What is left of it when the route is replicated again with C2. *)
Definition master_revived : InetMVpnTable :=
  Sample.master_with [Sample.replicated Sample.src_path Sample.C2]
    [200; 200].

(** A primary path of the destination route, ranked before the
    replicated one. *)
Definition primary_path : BgpPath := mkPath (Some 6) 1 1 Sample.attr0 0 17 None.

Definition master_primary : InetMVpnTable :=
  Sample.master_with [primary_path] [].
Definition master_primary_C1 : InetMVpnTable :=
  Sample.master_with [primary_path; Sample.replicated Sample.src_path Sample.C1]
    [].

(** The table of instance blue with its tree manager, assigned the
    default instance afterwards. *)
Definition blue_reassigned : InetMVpnTable :=
  Sample.with_instance Sample.blue_live Sample.master.

(** A table of another family. *)
Definition inet_table : BgpTable :=
  mkBgpTable "inet.0" INET (Some Sample.master) [].

Definition empty_partition : DBTablePartition := mkPartition [] [].
Definition native_key : RequestKey := mkRequestKey Sample.native_prefix.

End Scenario.

(** A path with other flags and another label, and all else as it
    was. *)
Definition relabelled (p : BgpPath) (flags label : Z) : BgpPath :=
  {| GetPeer := GetPeer p; GetPathId := GetPathId p;
     GetSource := GetSource p; GetAttr := GetAttr p;
     GetFlags := flags; GetLabel := label; secondary := secondary p |}.

(** * Properties *)

Section Hashing.
Context `{Collaborators}.

(** C5. For a group address [g], the partition index [Hash] computes
    from a route whose prefix contains [g] equals the index it computes
    from a bare request key containing [g], and both indices lie in
    [0, PartitionCount). *)
Theorem Hash_entry_key_agree (entry : InetMVpnRoute) (key : RequestKey)
    (g : Ip4Address) :
  0 < PartitionCount ->
  group (GetPrefix entry) = g ->
  group (prefix key) = g ->
  Hash entry = Hash_key key ∧
  0 <= Hash entry < PartitionCount ∧
  0 <= Hash_key key < PartitionCount.
Proof.
  intros Hcount Hentry Hkey.
  assert (Heq : Hash entry = Hash_key key).
  { unfold Hash, Hash_key, HashFunction, InetTable_HashFunction; simpl.
    by rewrite Hentry, Hkey. }
  split; [exact Heq|].
  rewrite <- Heq. split; unfold Hash; by apply Z.mod_pos_bound.
Qed.

End Hashing.

Section HashingRun.
#[local] Existing Instance Sample.collaborators.

Lemma Hash_entry_key_agree_witness :
  let entry := Sample.src_route in
  let key := mkRequestKey Sample.native_prefix in
  Hash entry = Hash_key key ∧
  0 <= Hash entry < PartitionCount ∧
  0 <= Hash_key key < PartitionCount.
Proof.
  apply (Hash_entry_key_agree Sample.src_route
           (mkRequestKey Sample.native_prefix) 0xE0010203);
    [reflexivity | reflexivity | reflexivity].
Defined.

End HashingRun.

Section Replication.
Context `{Collaborators}.

(** C6. With a source table of the table's own family, [RouteReplicate]
    returns none and leaves the table as it was when both the table and
    the source table are non-default, and also when the source route is
    a [NativeRoute]: no destination route is created and no path is
    inserted. *)
Theorem RouteReplicate_short_circuit (t : InetMVpnTable)
    (src_table : BgpTable) (src_rt : BgpRoute) (src_path : BgpPath)
    (community : ExtCommunityPtr) (fresh : RoutePtr) :
  family src_table = INETMVPN ->
  (IsDefault (base t) = Ok false -> IsDefault src_table = Ok false ->
   RouteReplicate t src_table src_rt src_path community fresh
     = Ok (None, t))
  ∧
  (forall (is_default : bool) (mroute : InetMVpnRoute),
     IsDefault (base t) = Ok is_default ->
     (is_default = false -> exists b, IsDefault src_table = Ok b) ->
     src_rt = InetMVpn mroute ->
     type (GetPrefix mroute) = NativeRoute ->
     RouteReplicate t src_table src_rt src_path community fresh
       = Ok (None, t)).
Proof.
  intros Hfam. split.
  - intros Ht Hsrc. unfold RouteReplicate.
    rewrite Hfam, Ht, Hsrc. reflexivity.
  - intros is_default mroute Ht Hsrc -> Hnative. unfold RouteReplicate.
    rewrite Hfam, Ht. simpl.
    destruct is_default; simpl.
    + by rewrite decide_True.
    + destruct (Hsrc eq_refl) as [b ->]. simpl.
      destruct b; simpl; [|done]. by rewrite decide_True.
Qed.

End Replication.

Section ReplicationRun.
#[local] Existing Instance Sample.collaborators.

Lemma RouteReplicate_short_circuit_witness :
  RouteReplicate Sample.blue_table (base Sample.blue_table)
    (InetMVpn Sample.src_route) Sample.src_path Sample.C1 200
    = Ok (None, Sample.blue_table)
  ∧
  RouteReplicate Sample.master_table (base Sample.blue_table)
    (InetMVpn Sample.native_route) Sample.src_path Sample.C1 200
    = Ok (None, Sample.master_table).
Proof.
  split.
  - apply (RouteReplicate_short_circuit Sample.blue_table
             (base Sample.blue_table) (InetMVpn Sample.src_route)
             Sample.src_path Sample.C1 200);
      reflexivity.
  - apply (proj2 (RouteReplicate_short_circuit Sample.master_table
             (base Sample.blue_table) (InetMVpn Sample.native_route)
             Sample.src_path Sample.C1 200 eq_refl)
             true Sample.native_route);
      [reflexivity | discriminate | reflexivity | reflexivity].
Defined.

End ReplicationRun.

Section Exporting.
Context `{Collaborators}.

(** C7. On a channel with the generic protocol encoding, [Export]
    returns what the generic update-info computation on the given peer
    set decides: not-sent with the update list untouched exactly when it
    yields no update, and otherwise sent with the update pushed on the
    list.  The tree manager plays no part: the outcome is the same with
    any tree manager, or none, in the table, for every route. *)
Theorem Export_generic (t : InetMVpnTable) (ribout : RibOut)
    (route : BgpRoute) (peerset : RibPeerSet)
    (uinfo_slist : UpdateInfoSList) :
  IsEncodingBgp ribout = true ->
  Export t ribout route peerset uinfo_slist =
    match GetUpdateInfo (base t) ribout route peerset with
    | None => Ok (false, uinfo_slist)
    | Some uinfo => Ok (true, uinfo :: uinfo_slist)
    end
  ∧ (GetUpdateInfo (base t) ribout route peerset = None <->
     exists l, Export t ribout route peerset uinfo_slist = Ok (false, l))
  ∧ (forall tm : option McastTreeManager,
       Export (set_tree_manager t tm) ribout route peerset uinfo_slist =
       Export t ribout route peerset uinfo_slist).
Proof.
  intros Hbgp. unfold Export. rewrite Hbgp. simpl.
  split; [reflexivity|]. split; [|reflexivity].
  destruct (GetUpdateInfo _ _ _ _); split.
  - discriminate.
  - intros [l Hl]. discriminate.
  - eauto.
  - reflexivity.
Qed.

(** C4. On a channel without the generic encoding, [Export] of a
    [NativeRoute] is not-sent, with nothing pushed on the update list,
    when the table has no tree manager or the manager is being deleted,
    when the best path has no peer or a peer not registered on the
    channel, when the peer's index is not in the peer set, and when the
    tree manager has no update for the route; in the remaining case the
    manager's update gets the target bit of the peer's index set, is
    pushed on the list, and the call reports sent. *)
Theorem Export_native (t : InetMVpnTable) (ribout : RibOut)
    (route : BgpRoute) (inetmvpn_route : InetMVpnRoute)
    (peerset : RibPeerSet) (uinfo_slist : UpdateInfoSList) :
  IsEncodingBgp ribout = false ->
  route = InetMVpn inetmvpn_route ->
  type (GetPrefix inetmvpn_route) = NativeRoute ->
  let result := Export t ribout route peerset uinfo_slist in
  ((tree_manager_ t = None ∨
    (exists tm, tree_manager_ t = Some tm ∧ tm_deleted tm = true)) ->
   result = Ok (false, uinfo_slist))
  ∧
  (forall tm best_path,
     tree_manager_ t = Some tm -> tm_deleted tm = false ->
     BestPath inetmvpn_route = Some best_path ->
     ((GetPeer best_path = None ∨
       (exists peer, GetPeer best_path = Some peer ∧
                     IsRegistered ribout peer = false)) ->
      result = Ok (false, uinfo_slist))
     ∧
     (forall peer,
        GetPeer best_path = Some peer ->
        IsRegistered ribout peer = true ->
        let peerbit := GetPeerIndex ribout peer in
        (test peerset peerbit = false ->
         result = Ok (false, uinfo_slist))
        ∧
        (test peerset peerbit = true ->
         (tm_update_info tm inetmvpn_route = None ->
          result = Ok (false, uinfo_slist))
         ∧
         (forall uinfo,
            tm_update_info tm inetmvpn_route = Some uinfo ->
            result = Ok (true, set_target uinfo peerbit :: uinfo_slist)
            ∧ test (target (set_target uinfo peerbit)) peerbit = true
            ∧ roattr (set_target uinfo peerbit) = roattr uinfo)))).
Proof.
  intros Hbgp -> Hnative result. subst result. unfold Export.
  rewrite Hbgp. simpl. rewrite decide_False by (by intros []).
  split.
  - intros [-> | (tm & -> & ->)]; reflexivity.
  - intros tm best_path -> -> ->. simpl. split.
    + intros [-> | (peer & -> & ->)]; reflexivity.
    + intros peer Hpeer Hreg. cbv zeta. rewrite Hpeer, Hreg. simpl.
      set (peerbit := GetPeerIndex ribout peer). split.
      * intros ->. reflexivity.
      * intros Hbit. rewrite Hbit. simpl. split.
        -- intros ->. reflexivity.
        -- intros uinfo ->. split; [reflexivity|]. split; [|reflexivity].
           assert (0 <= peerbit) as Hpos.
           { destruct (Z.neg_nonneg_cases peerbit) as [Hneg|]; [|done].
             unfold test in Hbit. by rewrite Z.testbit_neg_r in Hbit. }
           unfold test, set_target, set. simpl.
           rewrite Z.lor_spec, Z.shiftl_spec by done.
           rewrite Z.sub_diag. simpl. apply orb_true_r.
Qed.

(** C10. On a channel without the generic encoding, [Export] of a
    [NativeRoute] dereferences the best path unchecked: in a table with
    a live tree manager a route without paths is a NULL dereference,
    while a best path without a peer is an ordinary not-sent outcome;
    for a route with at least one path the call returns, whatever the
    state of the tree manager. *)
Theorem Export_native_best_path (t : InetMVpnTable) (ribout : RibOut)
    (inetmvpn_route : InetMVpnRoute) (peerset : RibPeerSet)
    (uinfo_slist : UpdateInfoSList) :
  IsEncodingBgp ribout = false ->
  type (GetPrefix inetmvpn_route) = NativeRoute ->
  let result :=
    Export t ribout (InetMVpn inetmvpn_route) peerset uinfo_slist in
  (forall tm, tree_manager_ t = Some tm -> tm_deleted tm = false ->
     (rt_paths inetmvpn_route = [] -> result = Fault NullDeref)
     ∧ (forall best_path,
          BestPath inetmvpn_route = Some best_path ->
          GetPeer best_path = None ->
          result = Ok (false, uinfo_slist)))
  ∧ (rt_paths inetmvpn_route ≠ [] -> exists r, result = Ok r).
Proof.
  intros Hbgp Hnative result. subst result. unfold Export.
  rewrite Hbgp. simpl. rewrite decide_False by (by intros []).
  split.
  - intros tm -> ->. unfold BestPath, front. split.
    + intros ->. reflexivity.
    + intros best_path Hbest Hpeer. rewrite Hbest. simpl.
      by rewrite Hpeer.
  - intros Hpaths. unfold BestPath, front.
    destruct (tree_manager_ t) as [tm|]; [|eauto].
    destruct (tm_deleted tm); [eauto|].
    destruct (rt_paths inetmvpn_route) as [|p l]; [done|]. simpl.
    destruct (GetPeer p) as [peer|]; [|eauto].
    destruct (negb _); [eauto|]. destruct (negb _); [eauto|].
    destruct (tm_update_info _ _); eauto.
Qed.

End Exporting.

Section ExportingRun.
#[local] Existing Instance Sample.collaborators.

Lemma Export_generic_witness :
  Export Sample.blue_live Sample.bgp_ribout
    (InetMVpn Sample.native_route') Sample.peerset []
  = Ok (true, [mkUpdateInfo Sample.attr0 Sample.peerset]).
Proof.
  rewrite (proj1 (Export_generic Sample.blue_live Sample.bgp_ribout
                    (InetMVpn Sample.native_route') Sample.peerset []
                    eq_refl)).
  reflexivity.
Defined.

Lemma Export_native_witness :
  Export Sample.blue_live Sample.xmpp_ribout
    (InetMVpn Sample.native_route') Sample.peerset []
  = Ok (true, [mkUpdateInfo Sample.attr0 4])
  ∧ Export Sample.blue_table Sample.xmpp_ribout
      (InetMVpn Sample.native_route') Sample.peerset []
    = Ok (false, []).
Proof.
  pose proof (Export_native Sample.blue_live Sample.xmpp_ribout
                (InetMVpn Sample.native_route') Sample.native_route'
                Sample.peerset [] eq_refl eq_refl eq_refl) as [_ Hlive].
  pose proof (Export_native Sample.blue_table Sample.xmpp_ribout
                (InetMVpn Sample.native_route') Sample.native_route'
                Sample.peerset [] eq_refl eq_refl eq_refl) as [Habsent _].
  split.
  - destruct (Hlive Sample.live_manager Sample.native_path
                eq_refl eq_refl eq_refl) as [_ Hpeer].
    destruct (Hpeer 5 eq_refl eq_refl) as [_ Hbit].
    destruct (Hbit eq_refl) as [_ Hupdate].
    destruct (Hupdate (mkUpdateInfo Sample.attr0 0) eq_refl) as [Hsent _].
    exact Hsent.
  - apply Habsent. left. reflexivity.
Defined.

Lemma Export_native_best_path_witness :
  Export Sample.blue_live Sample.xmpp_ribout
    (InetMVpn Sample.native_route) Sample.peerset []
  = Fault NullDeref
  ∧ exists r, Export Sample.blue_live Sample.xmpp_ribout
                (InetMVpn Sample.native_route') Sample.peerset [] = Ok r.
Proof.
  split.
  - apply (proj1 (Export_native_best_path Sample.blue_live
             Sample.xmpp_ribout Sample.native_route Sample.peerset []
             eq_refl eq_refl) Sample.live_manager eq_refl eq_refl).
    reflexivity.
  - apply (proj2 (Export_native_best_path Sample.blue_live
             Sample.xmpp_ribout Sample.native_route' Sample.peerset []
             eq_refl eq_refl)).
    discriminate.
Defined.

End ExportingRun.

Section Lifecycle.
Context `{Collaborators}.

Lemma CreateTreeManager_default (t : InetMVpnTable) :
  IsDefault (base t) = Ok true -> CreateTreeManager t = Ok t.
Proof. intros Hd. unfold CreateTreeManager. by rewrite Hd. Qed.

Lemma DestroyTreeManager_default (t : InetMVpnTable) :
  IsDefault (base t) = Ok true -> DestroyTreeManager t = Ok t.
Proof. intros Hd. unfold DestroyTreeManager. by rewrite Hd. Qed.

Lemma CreateTreeManager_absent (t : InetMVpnTable) :
  IsDefault (base t) = Ok false -> tree_manager_ t = None ->
  CreateTreeManager t
    = Ok (set_tree_manager t
            (Some (Initialize (Create_McastTreeManager (base t))))).
Proof. intros Hd Htm. unfold CreateTreeManager. by rewrite Hd, Htm. Qed.

Lemma CreateTreeManager_present (t : InetMVpnTable) (tm : McastTreeManager) :
  IsDefault (base t) = Ok false -> tree_manager_ t = Some tm ->
  CreateTreeManager t = Fault AssertTreeManager.
Proof. intros Hd Htm. unfold CreateTreeManager. by rewrite Hd, Htm. Qed.

Lemma DestroyTreeManager_present (t : InetMVpnTable) (tm : McastTreeManager) :
  IsDefault (base t) = Ok false -> tree_manager_ t = Some tm ->
  DestroyTreeManager t = Ok (set_tree_manager t None).
Proof. intros Hd Htm. unfold DestroyTreeManager. by rewrite Hd, Htm. Qed.

Lemma DestroyTreeManager_absent (t : InetMVpnTable) :
  IsDefault (base t) = Ok false -> tree_manager_ t = None ->
  DestroyTreeManager t = Fault NullDeref.
Proof. intros Hd Htm. unfold DestroyTreeManager. by rewrite Hd, Htm. Qed.

Lemma transitions_default (t : InetMVpnTable) (trs : list Transition) :
  IsDefault (base t) = Ok true -> transitions t trs = Ok t.
Proof.
  intros Hdefault. induction trs as [|tr trs IH]; [reflexivity|].
  simpl. assert (transition t tr = Ok t) as ->; [|exact IH].
  destruct tr; simpl;
    [by apply CreateTreeManager_default
    |by apply DestroyTreeManager_default].
Qed.

(** C8 (amended). Assigning a routing instance to a table that has no
    tree manager, a newly constructed table among them, leaves the
    table with a tree manager if and only if the instance is
    non-default.  For a non-default instance the manager is created and
    initialized once: creating it again, directly or by assigning a
    non-default instance again, is a fault unless it was destroyed in
    between.  For the default instance creation and destruction are
    no-ops, not faults, so that a manager that is absent stays absent
    through any run of them.  They are no-ops on a manager that is
    present too: a table with a manager that is assigned the default
    instance keeps the manager, and [DestroyTreeManager] leaves it in
    place. *)
Theorem TreeManager_lifecycle (t : InetMVpnTable)
    (rtinstance : RoutingInstance) :
  tree_manager_ t = None ->
  exists t',
    set_routing_instance t rtinstance = Ok t'
    ∧ base t' = BgpTable_set_routing_instance (base t) rtinstance
    ∧ (is_Some (tree_manager_ t') <->
       IsDefaultRoutingInstance rtinstance = false)
    ∧ (IsDefaultRoutingInstance rtinstance = false ->
       tree_manager_ t'
         = Some (Initialize (Create_McastTreeManager (base t')))
       ∧ CreateTreeManager t' = Fault AssertTreeManager
       ∧ (forall rtinstance',
            IsDefaultRoutingInstance rtinstance' = false ->
            set_routing_instance t' rtinstance' = Fault AssertTreeManager)
       ∧ (forall rtinstance',
            IsDefaultRoutingInstance rtinstance' = true ->
            exists t'',
              set_routing_instance t' rtinstance' = Ok t''
              ∧ IsDefault (base t'') = Ok true
              ∧ tree_manager_ t'' = tree_manager_ t'
              ∧ CreateTreeManager t'' = Ok t''
              ∧ DestroyTreeManager t'' = Ok t'')
       ∧ exists t0,
           DestroyTreeManager t' = Ok t0 ∧ tree_manager_ t0 = None
           ∧ exists t1,
               CreateTreeManager t0 = Ok t1 ∧ is_Some (tree_manager_ t1))
    ∧ (IsDefaultRoutingInstance rtinstance = true ->
       tree_manager_ t' = None
       ∧ CreateTreeManager t' = Ok t'
       ∧ DestroyTreeManager t' = Ok t'
       ∧ forall trs, transitions t' trs = Ok t').
Proof.
  intros Htm0. unfold set_routing_instance.
  set (t0 := set_base t
               (BgpTable_set_routing_instance (base t) rtinstance)).
  assert (IsDefault (base t0) = Ok (IsDefaultRoutingInstance rtinstance))
    as Hd by reflexivity.
  assert (tree_manager_ t0 = None) as Htm by exact Htm0.
  destruct (IsDefaultRoutingInstance rtinstance) eqn:Hdefault.
  - exists t0. split; [by apply CreateTreeManager_default|].
    split; [done|].
    split; [by rewrite Htm; split; [intros [? ?]|]|].
    split; [done|]. intros _.
    split; [done|].
    split; [by apply CreateTreeManager_default|].
    split; [by apply DestroyTreeManager_default|].
    intros trs. by apply transitions_default.
  - set (tm := Initialize (Create_McastTreeManager (base t0))).
    exists (set_tree_manager t0 (Some tm)).
    split; [by apply CreateTreeManager_absent|].
    split; [done|].
    split; [by split; [|intros _; eexists]|].
    split; [|done]. intros _.
    split; [reflexivity|].
    split; [by eapply CreateTreeManager_present|].
    split.
    { intros rtinstance' Hdefault'. unfold set_routing_instance.
      eapply CreateTreeManager_present; [|reflexivity].
      simpl. unfold IsDefault. simpl. by rewrite Hdefault'. }
    split.
    { intros rtinstance' Hdefault'.
      set (t2 := set_base (set_tree_manager t0 (Some tm))
                   (BgpTable_set_routing_instance
                      (base (set_tree_manager t0 (Some tm))) rtinstance')).
      assert (IsDefault (base t2) = Ok true) as Hd2.
      { unfold IsDefault. simpl. by rewrite Hdefault'. }
      exists t2. unfold set_routing_instance. fold t2.
      split; [by apply CreateTreeManager_default|].
      split; [done|]. split; [done|].
      split; [by apply CreateTreeManager_default
             |by apply DestroyTreeManager_default]. }
    eexists.
    split; [by eapply DestroyTreeManager_present|].
    split; [reflexivity|].
    eexists.
    split; [by apply CreateTreeManager_absent|by eexists].
Qed.

End Lifecycle.

Section LifecycleRun.
#[local] Existing Instance Sample.collaborators.

Lemma TreeManager_lifecycle_witness :
  tree_manager_ (new_InetMVpnTable "blue.mvpn.0") = None
  ∧ exists t',
      set_routing_instance (new_InetMVpnTable "blue.mvpn.0") Sample.blue
        = Ok t'
      ∧ (is_Some (tree_manager_ t') <->
         IsDefaultRoutingInstance Sample.blue = false).
Proof.
  split; [reflexivity|].
  destruct (TreeManager_lifecycle (new_InetMVpnTable "blue.mvpn.0")
              Sample.blue eq_refl) as (t' & Hset & _ & Hiff & _).
  exists t'. split; [exact Hset|exact Hiff].
Defined.

(** C8 as stated fails: a table assigned the non-default instance blue
    and then the default instance is a default-instance table with a
    tree manager, which [DestroyTreeManager] does not remove. *)
Lemma TreeManager_survives_reassignment :
  set_routing_instance (new_InetMVpnTable "blue.mvpn.0") Sample.blue
    = Ok Sample.blue_live
  ∧ set_routing_instance Sample.blue_live Sample.master
    = Ok Scenario.blue_reassigned
  ∧ IsDefault (base Scenario.blue_reassigned) = Ok true
  ∧ tree_manager_ Scenario.blue_reassigned = Some Sample.live_manager
  ∧ DestroyTreeManager Scenario.blue_reassigned
    = Ok Scenario.blue_reassigned.
Proof. repeat split. Qed.

End LifecycleRun.

(** ** First-match search and removal *)

Section FirstMatch.
Context {A : Type} (P : A -> Prop) `{!forall x, Decision (P x)}.

Lemma find_first_filter (l : list A) : find_first P l = head (filter P l).
Proof.
  induction l as [|x l IH]; [reflexivity|]. simpl.
  rewrite filter_cons. by destruct (decide (P x)).
Qed.

Lemma find_first_Some (l : list A) (x : A) :
  find_first P l = Some x -> P x ∧ x ∈ l.
Proof.
  induction l as [|y l IH]; [discriminate|]. simpl.
  destruct (decide (P y)) as [Hy|Hy].
  - intros [= <-]. split; [done|]. apply list_elem_of_here.
  - intros Hfind. destruct (IH Hfind) as [Hx Hin].
    split; [done|]. by apply list_elem_of_further.
Qed.

Lemma find_first_None (l : list A) :
  find_first P l = None -> filter P l = [].
Proof.
  rewrite find_first_filter. by destruct (filter P l).
Qed.

Lemma find_first_app_new (l : list A) (x : A) :
  find_first P l = None -> P x -> find_first P (l ++ [x]) = Some x.
Proof.
  induction l as [|y l IH]; simpl; intros Hnone Hx.
  - by rewrite decide_True.
  - destruct (decide (P y)); [discriminate|]. by apply IH.
Qed.

Lemma remove_first_filter (l l' : list A) :
  remove_first P l = Some l' -> filter P l' = tail (filter P l).
Proof.
  revert l'. induction l as [|x l IH]; [discriminate|]. simpl. intros l'.
  rewrite filter_cons. destruct (decide (P x)) as [Hx|Hx].
  - by intros [= <-].
  - destruct (remove_first P l) as [l0|]; [|discriminate].
    intros [= <-]. rewrite filter_cons_False by done. by apply IH.
Qed.

Lemma remove_first_found (l : list A) (x : A) :
  find_first P l = Some x -> is_Some (remove_first P l).
Proof.
  induction l as [|y l IH]; [discriminate|]. simpl.
  destruct (decide (P y)); [by eexists|].
  intros Hfind. destruct (IH Hfind) as [l' ->]. by eexists.
Qed.

Lemma remove_first_count (Q : A -> Prop) `{!forall x, Decision (Q x)}
    (l l' : list A) :
  remove_first P l = Some l' ->
  (length (filter Q l') <= length (filter Q l))%nat.
Proof.
  revert l'. induction l as [|x l IH]; [discriminate|]. simpl. intros l'.
  destruct (decide (P x)) as [Hx|Hx].
  - intros [= <-]. rewrite (filter_cons Q x).
    destruct (decide (Q x)); simpl; lia.
  - destruct (remove_first P l) as [l0|]; [|discriminate].
    intros [= <-]. specialize (IH l0 eq_refl).
    rewrite !(filter_cons Q x). destruct (decide (Q x)); simpl; lia.
Qed.

Lemma filter_length_mono (Q : A -> Prop) `{!forall x, Decision (Q x)}
    (l : list A) :
  (forall x, P x -> Q x) ->
  (length (filter P l) <= length (filter Q l))%nat.
Proof.
  intros HPQ. induction l as [|x l IH]; [done|].
  rewrite !filter_cons.
  destruct (decide (P x)) as [HP|HP]; destruct (decide (Q x)) as [HQ|HQ];
    simpl; try lia.
  by destruct HQ; apply HPQ.
Qed.

End FirstMatch.

Section PathList.
Context `{Collaborators}.

Lemma insert_path_perm (p : BgpPath) (l : list BgpPath) :
  insert_path p l ≡ₚ p :: l.
Proof.
  induction l as [|q l IH]; [done|]. simpl.
  destruct (PathSelection p q); [done|].
  rewrite IH. apply Permutation_swap.
Qed.

Lemma insert_path_count (Q : BgpPath -> Prop) `{!forall x, Decision (Q x)}
    (p : BgpPath) (l : list BgpPath) :
  length (filter Q (insert_path p l)) = length (filter Q (p :: l)).
Proof. by rewrite insert_path_perm. Qed.

Lemma find_first_insert_path (Q : BgpPath -> Prop)
    `{!forall x, Decision (Q x)} (p : BgpPath) (l : list BgpPath) :
  Q p -> filter Q l = [] -> find_first Q (insert_path p l) = Some p.
Proof.
  intros Hp. induction l as [|q l IH]; simpl; intros Hnone.
  - by rewrite decide_True.
  - rewrite filter_cons in Hnone.
    destruct (decide (Q q)) as [Hq|Hq]; [discriminate|].
    destruct (PathSelection p q); simpl.
    + by rewrite decide_True.
    + rewrite decide_False by done. by apply IH.
Qed.

(** A path answers to one lookup key only. *)
Lemma secondary_match_key (p : BgpPath) src_rt src peer path_id
    src_rt' src' peer' path_id' :
  secondary_match src_rt src peer path_id p ->
  secondary_match src_rt' src' peer' path_id' p ->
  src_rt = src_rt' ∧ src = src' ∧ peer = peer' ∧ path_id = path_id'.
Proof.
  unfold secondary_match. intros (H1 & H2 & H3 & H4) (H1' & H2' & H3' & H4').
  rewrite H1 in H1'. by simplify_eq.
Qed.

Lemma find_first_store (k : InetMVpnPrefix) (l : list InetMVpnRoute)
    (r r' : InetMVpnRoute) :
  find_first (fun r => GetPrefix r = k) l = Some r ->
  GetPrefix r' = k ->
  find_first (fun r => GetPrefix r = k) (store r' l) = Some r'.
Proof.
  intros Hfind Hk. induction l as [|x l IH]; [discriminate|].
  simpl in *. rewrite Hk.
  destruct (decide (GetPrefix x = k)) as [Hx|Hx]; simpl.
  - by rewrite decide_True.
  - rewrite decide_False by done. by apply IH.
Qed.

Lemma store_found (l : list InetMVpnRoute) (r : InetMVpnRoute) :
  find_first (fun r0 => GetPrefix r0 = GetPrefix r) l = Some r ->
  store r l = l.
Proof.
  induction l as [|x l IH]; [done|]. simpl.
  destruct (decide (GetPrefix x = GetPrefix r)) as [Hx|Hx].
  - by intros [= ->].
  - intros Hfind. by rewrite IH.
Qed.

Lemma elem_of_store (l : list InetMVpnRoute) (r' x : InetMVpnRoute) :
  x ∈ store r' l -> x = r' ∨ x ∈ l.
Proof.
  induction l as [|y l IH]; simpl; [by right|].
  destruct (decide (GetPrefix y = GetPrefix r')).
  - intros [->|Hin]%elem_of_cons; [by left|].
    right. by apply list_elem_of_further.
  - intros [->|Hin]%elem_of_cons.
    + right. apply list_elem_of_here.
    + destruct (IH Hin) as [->|Hl]; [by left|].
      right. by apply list_elem_of_further.
Qed.

Lemma store_store (l : list InetMVpnRoute) (r1 r2 : InetMVpnRoute) :
  GetPrefix r1 = GetPrefix r2 -> store r2 (store r1 l) = store r2 l.
Proof.
  intros Hk. induction l as [|x l IH]; [done|]. simpl.
  destruct (decide (GetPrefix x = GetPrefix r1)) as [Hx|Hx]; simpl.
  - rewrite decide_True by done. by rewrite decide_True by congruence.
  - rewrite !decide_False by congruence. by rewrite IH.
Qed.

Lemma store_app_new (l : list InetMVpnRoute) (r r' : InetMVpnRoute) :
  find_first (fun x => GetPrefix x = GetPrefix r) l = None ->
  GetPrefix r' = GetPrefix r ->
  store r' (l ++ [r]) = l ++ [r'].
Proof.
  intros Hnone Hk. induction l as [|x l IH]; simpl in *.
  - by rewrite decide_True.
  - destruct (decide (GetPrefix x = GetPrefix r)); [discriminate|].
    rewrite decide_False by congruence. by rewrite IH.
Qed.

End PathList.

Section ReplicationProofs.
Context `{Collaborators}.

Lemma Find_prefix (rtp : DBTablePartition) (k : InetMVpnPrefix)
    (r : InetMVpnRoute) :
  Find rtp k = Some r -> GetPrefix r = k ∧ r ∈ tree rtp.
Proof.
  unfold Find. intros Hfind.
  by apply (find_first_Some (fun r => GetPrefix r = k)) in Hfind.
Qed.

Lemma Find_Store (rtp : DBTablePartition) (k : InetMVpnPrefix)
    (r r' : InetMVpnRoute) :
  Find rtp k = Some r -> GetPrefix r' = k ->
  Find (Store rtp r') k = Some r'
  ∧ forall x, x ∈ tree (Store rtp r') -> x = r' ∨ x ∈ tree rtp.
Proof.
  intros Hfind Hk. split.
  - by eapply find_first_store.
  - intros x. apply elem_of_store.
Qed.

Lemma Find_Add (rtp : DBTablePartition) (k : InetMVpnPrefix)
    (r' : InetMVpnRoute) :
  Find rtp k = None -> GetPrefix r' = k ->
  Find (Add rtp r') k = Some r'
  ∧ forall x, x ∈ tree (Add rtp r') -> x = r' ∨ x ∈ tree rtp.
Proof.
  intros Hfind Hk. split.
  - by apply find_first_app_new.
  - intros x. simpl. rewrite elem_of_app, list_elem_of_singleton. tauto.
Qed.

Lemma Store_found (rtp : DBTablePartition) (r : InetMVpnRoute) :
  Find rtp (GetPrefix r) = Some r -> Store rtp r = rtp.
Proof.
  intros Hfind. destruct rtp as [l c]. unfold Store. simpl.
  f_equal. by apply store_found.
Qed.

(** The partition after the changed route is written back, notified or
    not. *)
Lemma Find_stored (rtp rtp' : DBTablePartition) (k : InetMVpnPrefix)
    (r r' : InetMVpnRoute) :
  Find rtp k = Some r -> GetPrefix r' = k ->
  rtp' = Notify (Store rtp r') r' ∨ rtp' = Store rtp r' ->
  Find rtp' k = Some r'
  ∧ forall x, x ∈ tree rtp' -> x = r' ∨ x ∈ tree rtp.
Proof.
  intros Hfind Hk Hrtp.
  destruct (Find_Store rtp k r r' Hfind Hk) as [Hf He].
  by destruct Hrtp as [-> | ->].
Qed.

Lemma RouteReplicate_Some_inv (t : InetMVpnTable) (src_table : BgpTable)
    (src_rt : BgpRoute) (src_path : BgpPath) (community : ExtCommunityPtr)
    (fresh : RoutePtr) (dest : RoutePtr) (t' : InetMVpnTable) :
  RouteReplicate t src_table src_rt src_path community fresh
    = Ok (Some dest, t') ->
  exists is_default mroute idx rtp dest_route rtp',
    IsDefault (base t) = Ok is_default ∧
    family src_table = INETMVPN ∧
    (is_default = false -> IsDefault src_table = Ok true) ∧
    src_rt = InetMVpn mroute ∧
    type (GetPrefix mroute) ≠ NativeRoute ∧
    let mprefix :=
      set_route_distinguisher (GetPrefix mroute)
        (if is_default then source_rd (GetAttr src_path) else null_rd) in
    let new_attr :=
      ReplaceExtCommunityAndLocate (GetAttr src_path) community in
    let replicated_path :=
      SetReplicateInfo
        (BgpSecondaryPath (GetPeer src_path) (GetPathId src_path)
           (GetSource src_path) new_attr
           (GetFlags src_path) (GetLabel src_path))
        (name src_table) (rt_this mroute) in
    let key := secondary_match (rt_this mroute) (GetSource src_path)
                 (GetPeer src_path) (GetPathId src_path) in
    let paths := match Find rtp mprefix with
                 | Some r => rt_paths r
                 | None => []
                 end in
    GetTablePartition (base t) (new_InetMVpnRoute 0 mprefix)
      = Ok (idx, rtp) ∧
    t' = set_base t (set_partition (base t) idx rtp') ∧
    Find rtp' mprefix = Some dest_route ∧
    rt_this dest_route = dest ∧
    IsDeleted dest_route = false ∧
    (forall r, r ∈ tree rtp' -> r = dest_route ∨ r ∈ tree rtp) ∧
    ((exists p, find_first key paths = Some p ∧ GetAttr p = new_attr ∧
                rt_paths dest_route = paths)
     ∨
     (exists l,
        (find_first key paths = None ∧ l = paths
         ∨ exists p, find_first key paths = Some p ∧
                     GetAttr p ≠ new_attr ∧
                     remove_first key paths = Some l) ∧
        rt_paths dest_route = insert_path replicated_path l)).
Proof.
  unfold RouteReplicate. intros Hrun.
  destruct (decide (family src_table = INETMVPN)) as [Hfam|Hfam];
    [rewrite bool_decide_eq_true_2 in Hrun by done
    |rewrite bool_decide_eq_false_2 in Hrun by done; discriminate].
  simpl in Hrun.
  destruct (IsDefault (base t)) as [is_default|] eqn:Hdefault;
    [|discriminate].
  simpl in Hrun.
  assert (is_default = false -> IsDefault src_table = Ok true) as Hsrc.
  { intros ->. destruct (IsDefault src_table) as [[|]|]; done. }
  assert ((if is_default then Ok false else negb <$> IsDefault src_table)
          = Ok false) as Hvpn.
  { destruct is_default; [done|]. by rewrite Hsrc. }
  rewrite Hvpn in Hrun. simpl in Hrun. clear Hvpn.
  destruct src_rt as [mroute|]; simpl in Hrun; [|discriminate].
  destruct (decide (type (GetPrefix mroute) = NativeRoute)) as [|Hnative];
    [discriminate|].
  exists is_default, mroute.
  assert ((if is_default
           then set_route_distinguisher (GetPrefix mroute)
                  (source_rd (GetAttr src_path))
           else set_route_distinguisher (GetPrefix mroute) null_rd)
          = set_route_distinguisher (GetPrefix mroute)
              (if is_default then source_rd (GetAttr src_path)
               else null_rd)) as Hprefix by (by destruct is_default).
  rewrite !Hprefix in Hrun. clear Hprefix.
  set (mprefix := set_route_distinguisher _ _) in *.
  destruct (GetTablePartition (base t) (new_InetMVpnRoute 0 mprefix))
    as [[idx rtp]|] eqn:Hpart; [|discriminate].
  simpl in Hrun.
  exists idx, rtp.
  set (new_attr := ReplaceExtCommunityAndLocate _ _) in *.
  set (rp := SetReplicateInfo _ _ _) in *.
  set (key := secondary_match (rt_this mroute) (GetSource src_path)
                (GetPeer src_path) (GetPathId src_path)) in *.
  (* the destination route as found or created, and its partition *)
  assert (exists d0 rtp1,
    match Find rtp mprefix with
    | Some dest_route =>
        (ClearDelete dest_route, Store rtp (ClearDelete dest_route))
    | None =>
        (new_InetMVpnRoute fresh mprefix,
         Add rtp (new_InetMVpnRoute fresh mprefix))
    end = (d0, rtp1)
    ∧ Find rtp1 mprefix = Some d0
    ∧ GetPrefix d0 = mprefix
    ∧ IsDeleted d0 = false
    ∧ rt_paths d0 = match Find rtp mprefix with
                    | Some r => rt_paths r
                    | None => []
                    end
    ∧ (forall x, x ∈ tree rtp1 -> x = d0 ∨ x ∈ tree rtp)
    ∧ (forall d x, GetPrefix d = mprefix ->
         x ∈ store d (tree rtp1) -> x = d ∨ x ∈ tree rtp))
    as (d0 & rtp1 & Hpair & Hfind1 & Hprefix0 & Hdel0 & Hpaths0
        & Helem1 & Hstore1).
  { destruct (Find rtp mprefix) as [r|] eqn:Hfind.
    - destruct (Find_prefix _ _ _ Hfind) as [Hk _].
      destruct (Find_Store rtp mprefix r (ClearDelete r) Hfind Hk)
        as [Hf He].
      eexists _, _. split_and!; try done.
      intros d x Hd. simpl. rewrite store_store by (by rewrite Hd).
      apply elem_of_store.
    - destruct (Find_Add rtp mprefix (new_InetMVpnRoute fresh mprefix)
                  Hfind eq_refl) as [Hf He].
      eexists _, _. split_and!; try done.
      intros d x Hd. simpl. rewrite store_app_new by done.
      rewrite elem_of_app, list_elem_of_singleton. tauto. }
  rewrite Hpair in Hrun. rewrite <- Hpaths0. clear Hpair Hpaths0.
  unfold FindSecondaryPath, RemoveSecondaryPath in Hrun. fold key in Hrun.
  assert (forall d rtp',
    GetPrefix d = mprefix ->
    rtp' = Notify (Store rtp1 d) d ∨ rtp' = Store rtp1 d ->
    Find rtp' mprefix = Some d
    ∧ forall x, x ∈ tree rtp' -> x = d ∨ x ∈ tree rtp) as Hstored.
  { intros d rtp' Hd Hrtp.
    destruct (Find_stored rtp1 rtp' mprefix d0 d Hfind1 Hd Hrtp) as [Hf _].
    split; [done|]. intros x Hx. apply (Hstore1 d x Hd).
    by destruct Hrtp as [-> | ->]. }
  destruct (find_first key (rt_paths d0)) as [p|] eqn:Hsec.
  - destruct (decide (new_attr ≠ GetAttr p)) as [Hattr|Hattr].
    + destruct (remove_first key (rt_paths d0)) as [l|] eqn:Hrem;
        simpl in Hrun; [|discriminate].
      injection Hrun as <- <-.
      destruct (Hstored (InsertPath (set_paths d0 l) rp)
                  (if decide (front (InsertPath (set_paths d0 l) rp)
                              = Some rp)
                   then Notify (Store rtp1 (InsertPath (set_paths d0 l) rp))
                          (InsertPath (set_paths d0 l) rp)
                   else Store rtp1 (InsertPath (set_paths d0 l) rp)))
        as [Hf He]; [done|by destruct (decide _); [left|right]|].
      eexists _, _. split_and!; try done.
      right. exists l. split; [|done]. right. exists p. by split_and!.
    + injection Hrun as <- <-.
      exists d0, rtp1. split_and!; try done.
      left. exists p. split_and!; try done.
      by destruct (decide (new_attr = GetAttr p)).
  - injection Hrun as <- <-.
    destruct (Hstored (InsertPath d0 rp)
                (if decide (front (InsertPath d0 rp) = Some rp)
                 then Notify (Store rtp1 (InsertPath d0 rp))
                        (InsertPath d0 rp)
                 else Store rtp1 (InsertPath d0 rp)))
      as [Hf He]; [done|by destruct (decide _); [left|right]|].
    eexists _, _. split_and!; try done.
    right. exists (rt_paths d0). split; [by left|done].
Qed.

Lemma RouteReplicate_None_inv (t : InetMVpnTable) (src_table : BgpTable)
    (src_rt : BgpRoute) (src_path : BgpPath) (community : ExtCommunityPtr)
    (fresh : RoutePtr) (t' : InetMVpnTable) :
  RouteReplicate t src_table src_rt src_path community fresh
    = Ok (None, t') ->
  t' = t.
Proof.
  unfold RouteReplicate. intros Hrun.
  destruct (bool_decide (family src_table = INETMVPN));
    simpl in Hrun; [|discriminate].
  destruct (IsDefault (base t)) as [is_default|];
    simpl in Hrun; [|discriminate].
  destruct (if is_default then Ok false else negb <$> IsDefault src_table)
    as [[|]|]; simpl in Hrun; [by injection Hrun| |discriminate].
  destruct (dynamic_cast_InetMVpnRoute src_rt) as [mroute|];
    [|discriminate].
  destruct (decide (type (GetPrefix mroute) = NativeRoute));
    [by injection Hrun|].
  destruct (GetTablePartition _ _) as [[idx rtp]|];
    simpl in Hrun; [|discriminate].
  destruct (match Find rtp _ with Some _ => _ | None => _ end)
    as [d0 rtp1].
  destruct (FindSecondaryPath d0 _ _ _ _) as [p|]; [|discriminate].
  destruct (decide (_ ≠ GetAttr p)); [|discriminate].
  destruct (RemoveSecondaryPath d0 _ _ _ _) as [[|] d1];
    simpl in Hrun; discriminate.
Qed.

Lemma IsDefault_Fault (b : BgpTable) (k : FaultKind) :
  IsDefault b = Fault k -> k = NullDeref.
Proof.
  unfold IsDefault. destruct (rtinstance_ b); simpl; congruence.
Qed.

(** The removal [RouteReplicate] asserts on cannot fail. *)
Lemma RouteReplicate_remove_succeeds (t : InetMVpnTable)
    (src_table : BgpTable) (src_rt : BgpRoute) (src_path : BgpPath)
    (community : ExtCommunityPtr) (fresh : RoutePtr) :
  RouteReplicate t src_table src_rt src_path community fresh
    ≠ Fault AssertRemove.
Proof.
  unfold RouteReplicate. intros Hrun.
  destruct (bool_decide (family src_table = INETMVPN));
    simpl in Hrun; [|discriminate].
  destruct (IsDefault (base t)) as [is_default|k] eqn:Hd; simpl in Hrun;
    [|apply IsDefault_Fault in Hd; congruence].
  destruct (if is_default then Ok false else negb <$> IsDefault src_table)
    as [[|]|k] eqn:Hvpn; simpl in Hrun; [discriminate| |].
  2:{ destruct is_default; [discriminate|].
      destruct (IsDefault src_table) as [?|k'] eqn:Hs; [discriminate|].
      apply IsDefault_Fault in Hs. simpl in Hvpn. congruence. }
  destruct (dynamic_cast_InetMVpnRoute src_rt) as [mroute|];
    [|discriminate].
  destruct (decide (type (GetPrefix mroute) = NativeRoute));
    [discriminate|].
  destruct (GetTablePartition _ _) as [[idx rtp]|] eqn:Hpart;
    simpl in Hrun.
  2:{ unfold GetTablePartition in Hpart.
      destruct (partitions (base t) !! _); congruence. }
  destruct (match Find rtp _ with Some _ => _ | None => _ end)
    as [d0 rtp1].
  unfold FindSecondaryPath, RemoveSecondaryPath in Hrun.
  destruct (find_first _ (rt_paths d0)) as [p|] eqn:Hsec; [|discriminate].
  destruct (decide (_ ≠ GetAttr p)); [|discriminate].
  destruct (remove_first_found _ _ _ Hsec) as [l Hl].
  rewrite Hl in Hrun. discriminate.
Qed.

Lemma GetTablePartition_Ok (b : BgpTable) (entry : InetMVpnRoute)
    (idx : nat) (rtp : DBTablePartition) :
  GetTablePartition b entry = Ok (idx, rtp) ->
  idx = Z.to_nat (Hash entry) ∧ partitions b !! idx = Some rtp.
Proof.
  unfold GetTablePartition.
  destruct (partitions b !! Z.to_nat (Hash entry)) as [rtp0|] eqn:Hl;
    [|discriminate].
  by intros [= <- <-].
Qed.

Lemma GetTablePartition_set_partition (b : BgpTable)
    (entry : InetMVpnRoute) (idx : nat) (rtp rtp' : DBTablePartition) :
  GetTablePartition b entry = Ok (idx, rtp) ->
  GetTablePartition (set_partition b idx rtp') entry = Ok (idx, rtp').
Proof.
  intros [-> Hl]%GetTablePartition_Ok. unfold GetTablePartition. simpl.
  rewrite list_lookup_insert_eq; [done|]. by eapply lookup_lt_Some.
Qed.

Lemma elem_of_set_partition (l : list DBTablePartition) (idx : nat)
    (rtp x : DBTablePartition) :
  x ∈ <[idx := rtp]> l -> x = rtp ∨ x ∈ l.
Proof.
  intros (i & Hi)%list_elem_of_lookup.
  destruct (decide (idx = i)) as [->|Hne].
  - destruct (decide (i < length l)%nat).
    + rewrite list_lookup_insert_eq in Hi by done. left. congruence.
    + rewrite list_insert_ge in Hi by lia.
      right. by eapply list_elem_of_lookup_2.
  - rewrite list_lookup_insert_ne in Hi by done.
    right. by eapply list_elem_of_lookup_2.
Qed.

End ReplicationProofs.

Section ReplicationTheorems.
Context `{Collaborators}.

(** The path list [RouteReplicate] leaves on the destination route, for
    a list that had at most one path per lookup key. *)
Lemma replicated_paths (paths paths' : list BgpPath) (rp : BgpPath)
    (src_rt : RoutePtr) (src : PathSource) (peer : option IPeer)
    (path_id : Z) (new_attr : BgpAttrPtr) :
  let key := secondary_match src_rt src peer path_id in
  (forall a b c d,
     (length (filter (secondary_match a b c d) paths) <= 1)%nat) ->
  key rp -> GetAttr rp = new_attr ->
  ((exists p, find_first key paths = Some p ∧ GetAttr p = new_attr ∧
              paths' = paths)
   ∨
   (exists l,
      (find_first key paths = None ∧ l = paths
       ∨ exists p, find_first key paths = Some p ∧
                   GetAttr p ≠ new_attr ∧
                   remove_first key paths = Some l) ∧
      paths' = insert_path rp l)) ->
  (forall a b c d,
     (length (filter (secondary_match a b c d) paths') <= 1)%nat)
  ∧ length (filter key paths') = 1%nat
  ∧ exists p, find_first key paths' = Some p ∧ GetAttr p = new_attr.
Proof.
  intros key Huniq Hrp Hattr [(p & Hfind & Hp & ->) | (l & Hl & ->)].
  - split; [done|]. split; [|by exists p].
    specialize (Huniq src_rt src peer path_id). fold key in Huniq.
    rewrite find_first_filter in Hfind.
    destruct (filter key paths) as [|x [|y l]]; simpl in *;
      [discriminate|done|lia].
  - assert (filter key l = [] ∧
            forall a b c d,
              (length (filter (secondary_match a b c d) l)
               <= length (filter (secondary_match a b c d) paths))%nat)
      as [Hnone Hle].
    { destruct Hl as [[Hfind ->] | (p & Hfind & Hp & Hrem)].
      - split; [by apply find_first_None|done].
      - split.
        + rewrite (remove_first_filter key paths l Hrem).
          specialize (Huniq src_rt src peer path_id). fold key in Huniq.
          destruct (filter key paths) as [|x [|y l0]]; simpl in *;
            [done|done|lia].
        + intros a b c d. by eapply remove_first_count. }
    split_and!.
    + intros a b c d. rewrite insert_path_count, filter_cons.
      destruct (decide (secondary_match a b c d rp)) as [Hk|Hk]; simpl.
      * destruct (secondary_match_key rp _ _ _ _ _ _ _ _ Hk Hrp)
          as (-> & -> & -> & ->).
        fold key. by rewrite Hnone.
      * specialize (Hle a b c d). specialize (Huniq a b c d). lia.
    + rewrite insert_path_count, filter_cons_True by done.
      simpl. by rewrite Hnone.
    + exists rp. split; [|done]. by apply find_first_insert_path.
Qed.

Lemma FindRoute_set_partition (t : InetMVpnTable) (k : InetMVpnPrefix)
    (idx : nat) (rtp rtp' : DBTablePartition) (r : InetMVpnRoute) :
  GetTablePartition (base t) (new_InetMVpnRoute 0 k) = Ok (idx, rtp) ->
  Find rtp' k = Some r ->
  FindRoute (set_base t (set_partition (base t) idx rtp')) k = Some r.
Proof.
  intros Hpart Hfind. unfold FindRoute. simpl.
  by rewrite (GetTablePartition_set_partition _ _ _ _ rtp' Hpart).
Qed.

(** C2. When [RouteReplicate] returns a destination route, the route
    distinguisher of that route's prefix is decided by the role of the
    table and the source path alone: in the default instance it is the
    source RD of the source path's attribute, otherwise the null RD.
    The other fields of the prefix are those of the source route. *)
Theorem RouteReplicate_route_distinguisher (t : InetMVpnTable)
    (src_table : BgpTable) (src_rt : BgpRoute) (src_path : BgpPath)
    (community : ExtCommunityPtr) (fresh : RoutePtr)
    (dest : RoutePtr) (t' : InetMVpnTable) :
  RouteReplicate t src_table src_rt src_path community fresh
    = Ok (Some dest, t') ->
  exists is_default mroute dest_route,
    IsDefault (base t) = Ok is_default
    ∧ src_rt = InetMVpn mroute
    ∧ FindRoute t' (GetPrefix dest_route) = Some dest_route
    ∧ rt_this dest_route = dest
    ∧ route_distinguisher (GetPrefix dest_route)
        = (if is_default then source_rd (GetAttr src_path) else null_rd)
    ∧ type (GetPrefix dest_route) = type (GetPrefix mroute)
    ∧ group (GetPrefix dest_route) = group (GetPrefix mroute)
    ∧ source (GetPrefix dest_route) = source (GetPrefix mroute).
Proof.
  intros Hrun.
  destruct (RouteReplicate_Some_inv _ _ _ _ _ _ _ _ Hrun)
    as (is_default & mroute & idx & rtp & dest_route & rtp' & Hdefault
        & _ & _ & -> & _ & Hpart & -> & Hfind & Hthis & _).
  destruct (Find_prefix _ _ _ Hfind) as [Hprefix _].
  exists is_default, mroute, dest_route. rewrite Hprefix.
  split_and!; try done.
  by eapply FindRoute_set_partition.
Qed.

Lemma ClearDelete_clear (r : InetMVpnRoute) :
  IsDeleted r = false -> ClearDelete r = r.
Proof. destruct r. simpl. by intros ->. Qed.

Lemma set_partition_same (t : InetMVpnTable) (idx : nat)
    (rtp : DBTablePartition) :
  partitions (base t) !! idx = Some rtp ->
  set_base t (set_partition (base t) idx rtp) = t.
Proof.
  intros Hl. destruct t as [[n f ri parts] tm].
  unfold set_base, set_partition. simpl in *.
  by rewrite list_insert_id.
Qed.

(** A call that finds the route with a path of the wanted attribute
    under the key changes nothing. *)
Lemma RouteReplicate_unchanged (t : InetMVpnTable) (src_table : BgpTable)
    (mroute : InetMVpnRoute) (src_path : BgpPath)
    (community : ExtCommunityPtr) (fresh : RoutePtr) (is_default : bool)
    (idx : nat) (rtp : DBTablePartition) (dest_route : InetMVpnRoute)
    (p : BgpPath) :
  family src_table = INETMVPN ->
  IsDefault (base t) = Ok is_default ->
  (is_default = false -> IsDefault src_table = Ok true) ->
  type (GetPrefix mroute) ≠ NativeRoute ->
  let mprefix :=
    set_route_distinguisher (GetPrefix mroute)
      (if is_default then source_rd (GetAttr src_path) else null_rd) in
  GetTablePartition (base t) (new_InetMVpnRoute 0 mprefix)
    = Ok (idx, rtp) ->
  Find rtp mprefix = Some dest_route ->
  IsDeleted dest_route = false ->
  find_first (secondary_match (rt_this mroute) (GetSource src_path)
                (GetPeer src_path) (GetPathId src_path))
    (rt_paths dest_route) = Some p ->
  GetAttr p = ReplaceExtCommunityAndLocate (GetAttr src_path) community ->
  RouteReplicate t src_table (InetMVpn mroute) src_path community fresh
    = Ok (Some (rt_this dest_route), t).
Proof.
  intros Hfam Hdefault Hsrc Hnative mprefix Hpart Hfind Hdel Hsec Hattr.
  unfold RouteReplicate.
  rewrite bool_decide_eq_true_2 by done. simpl.
  rewrite Hdefault. simpl.
  assert ((if is_default then Ok false else negb <$> IsDefault src_table)
          = Ok false) as ->.
  { destruct is_default; [done|]. by rewrite Hsrc. }
  simpl. rewrite decide_False by done.
  assert ((if is_default
           then set_route_distinguisher (GetPrefix mroute)
                  (source_rd (GetAttr src_path))
           else set_route_distinguisher (GetPrefix mroute) null_rd)
          = mprefix) as -> by (by destruct is_default).
  rewrite Hpart. simpl. rewrite Hfind.
  rewrite (ClearDelete_clear _ Hdel).
  destruct (Find_prefix _ _ _ Hfind) as [Hprefix _].
  rewrite Store_found by (by rewrite Hprefix).
  unfold FindSecondaryPath. rewrite Hsec.
  rewrite decide_False by (by rewrite Hattr; intros []).
  destruct (GetTablePartition_Ok _ _ _ _ Hpart) as [_ Hl].
  by rewrite set_partition_same.
Qed.

Lemma TableUnique_empty (t : InetMVpnTable) :
  Forall (fun rtp => tree rtp = []) (partitions (base t)) -> TableUnique t.
Proof.
  intros Hempty rtp r Hrtp Hr.
  rewrite Forall_forall in Hempty. rewrite (Hempty rtp Hrtp) in Hr.
  by apply elem_of_nil in Hr.
Qed.

(** What a call that returns a destination route leaves behind, in a
    table whose routes have at most one secondary path per key. *)
Lemma RouteReplicate_Some_post (t : InetMVpnTable) (src_table : BgpTable)
    (src_rt : BgpRoute) (src_path : BgpPath) (community : ExtCommunityPtr)
    (fresh : RoutePtr) (dest : RoutePtr) (t' : InetMVpnTable) :
  TableUnique t ->
  RouteReplicate t src_table src_rt src_path community fresh
    = Ok (Some dest, t') ->
  TableUnique t'
  ∧ exists dest_route p,
      FindRoute t' (GetPrefix dest_route) = Some dest_route
      ∧ rt_this dest_route = dest
      ∧ secondary_count dest_route (route_ptr src_rt) (GetSource src_path)
          (GetPeer src_path) (GetPathId src_path) = 1%nat
      ∧ FindSecondaryPath dest_route (route_ptr src_rt)
          (GetSource src_path) (GetPeer src_path) (GetPathId src_path)
          = Some p
      ∧ GetAttr p = ReplaceExtCommunityAndLocate (GetAttr src_path) community
      ∧ forall fresh',
          RouteReplicate t' src_table src_rt src_path community fresh'
            = Ok (Some dest, t').
Proof.
  intros Huniq Hrun.
  destruct (RouteReplicate_Some_inv _ _ _ _ _ _ _ _ Hrun)
    as (is_default & mroute & idx & rtp & dest_route & rtp' & Hdefault
        & Hfam & Hsrc & -> & Hnative & Hpart & -> & Hfind & Hthis & Hdel
        & Helem & Hpaths).
  simpl in *.
  set (mprefix := set_route_distinguisher (GetPrefix mroute) _) in *.
  set (new_attr := ReplaceExtCommunityAndLocate _ _) in *.
  set (rp := SetReplicateInfo _ _ _) in *.
  destruct (GetTablePartition_Ok _ _ _ _ Hpart) as [_ Hl].
  assert (rtp ∈ partitions (base t)) as Hrtp
    by (by eapply list_elem_of_lookup_2).
  assert (forall a b c d,
    (length (filter (secondary_match a b c d)
               match Find rtp mprefix with
               | Some r => rt_paths r
               | None => []
               end) <= 1)%nat) as Hpaths0.
  { intros a b c d. destruct (Find rtp mprefix) as [r|] eqn:Hr;
      [|simpl; lia].
    destruct (Find_prefix _ _ _ Hr) as [_ Hin].
    apply (Huniq rtp r Hrtp Hin). }
  destruct (replicated_paths _ (rt_paths dest_route) rp (rt_this mroute)
              (GetSource src_path) (GetPeer src_path) (GetPathId src_path)
              new_attr Hpaths0) as (Hdest & Hcount & p & Hsec & Hattr);
    [by repeat split|done|exact Hpaths|].
  destruct (Find_prefix _ _ _ Hfind) as [Hprefix _].
  split.
  - intros rtp'' r Hin Hr. simpl in Hin.
    apply elem_of_set_partition in Hin as [->|Hin].
    + destruct (Helem r Hr) as [->|Hold]; [exact Hdest|].
      by apply (Huniq rtp r).
    + by apply (Huniq rtp'' r).
  - exists dest_route, p. rewrite Hprefix. split_and!; try done.
    + by eapply FindRoute_set_partition.
    + intros fresh'. rewrite <- Hthis.
      eapply RouteReplicate_unchanged; try done.
      by apply GetTablePartition_set_partition with (rtp := rtp).
Qed.

(** C1. In a table whose routes have at most one secondary path per
    lookup key, a call of [RouteReplicate] that returned a destination
    route, made again with the same source table, source route, source
    path and community, returns the same route object and leaves the
    whole table as the first call left it: no path is added and no
    notification is raised, whatever address an allocation would give.
    The destination route has exactly one secondary path for the key of
    the source path. *)
Theorem RouteReplicate_idempotent (t : InetMVpnTable) (src_table : BgpTable)
    (src_rt : BgpRoute) (src_path : BgpPath) (community : ExtCommunityPtr)
    (fresh : RoutePtr) (dest : RoutePtr) (t' : InetMVpnTable) :
  TableUnique t ->
  RouteReplicate t src_table src_rt src_path community fresh
    = Ok (Some dest, t') ->
  (forall fresh',
     RouteReplicate t' src_table src_rt src_path community fresh'
       = Ok (Some dest, t'))
  ∧ exists dest_route,
      FindRoute t' (GetPrefix dest_route) = Some dest_route
      ∧ rt_this dest_route = dest
      ∧ secondary_count dest_route (route_ptr src_rt) (GetSource src_path)
          (GetPeer src_path) (GetPathId src_path) = 1%nat.
Proof.
  intros Huniq Hrun.
  destruct (RouteReplicate_Some_post _ _ _ _ _ _ _ _ Huniq Hrun)
    as (_ & dest_route & p & Hfind & Hthis & Hcount & _ & _ & Hagain).
  split; [exact Hagain|]. by exists dest_route.
Qed.

Lemma RouteReplicate_unique (t : InetMVpnTable) (src_table : BgpTable)
    (src_rt : BgpRoute) (src_path : BgpPath) (community : ExtCommunityPtr)
    (fresh : RoutePtr) (r : option RoutePtr) (t' : InetMVpnTable) :
  TableUnique t ->
  RouteReplicate t src_table src_rt src_path community fresh = Ok (r, t') ->
  TableUnique t'.
Proof.
  intros Huniq Hrun. destruct r as [dest|].
  - by destruct (RouteReplicate_Some_post _ _ _ _ _ _ _ _ Huniq Hrun).
  - by rewrite (RouteReplicate_None_inv _ _ _ _ _ _ _ Hrun).
Qed.

Lemma Replicated_unique (t : InetMVpnTable) : Replicated t -> TableUnique t.
Proof.
  induction 1 as [t Hempty | t src_table src_rt src_path community fresh
                              r t' _ IH Hrun].
  - by apply TableUnique_empty.
  - by eapply RouteReplicate_unique.
Qed.

Lemma provenance_source_secondary (p : BgpPath) (src_table : TablePtr)
    (src_rt : RoutePtr) (src : PathSource) (peer : option IPeer)
    (path_id : Z) :
  provenance_source_match src_table src_rt src peer path_id p ->
  secondary_match src_rt src peer path_id p.
Proof.
  intros [(Hsec & Hpeer & Hid) Hsrc]. unfold secondary_match.
  by rewrite Hsec.
Qed.

(** C3 (amended). No destination route that replication builds holds
    two secondary paths with the same source table, source route, path
    source, peer and path id; the source route, path source, peer and
    path id, by which [RouteReplicate] looks a path up, already single
    it out.  When [RouteReplicate] finds a secondary path under that key
    with another attribute than the new one, its removal cannot fail,
    and the call leaves exactly one secondary path under the key, which
    carries the new attribute. *)
Theorem RouteReplicate_secondary_unique :
  (forall t, Replicated t ->
     TableUnique t
     ∧ forall rtp r, rtp ∈ partitions (base t) -> r ∈ tree rtp ->
         forall src_table src_rt src peer path_id,
           (length (filter (provenance_source_match src_table src_rt src
                              peer path_id) (rt_paths r)) <= 1)%nat)
  ∧ (forall t src_table src_rt src_path community fresh,
       RouteReplicate t src_table src_rt src_path community fresh
         ≠ Fault AssertRemove)
  ∧ (forall t src_table src_rt src_path community fresh dest t',
       TableUnique t ->
       RouteReplicate t src_table src_rt src_path community fresh
         = Ok (Some dest, t') ->
       TableUnique t'
       ∧ exists dest_route p,
           FindRoute t' (GetPrefix dest_route) = Some dest_route
           ∧ rt_this dest_route = dest
           ∧ secondary_count dest_route (route_ptr src_rt)
               (GetSource src_path) (GetPeer src_path) (GetPathId src_path)
               = 1%nat
           ∧ FindSecondaryPath dest_route (route_ptr src_rt)
               (GetSource src_path) (GetPeer src_path) (GetPathId src_path)
               = Some p
           ∧ GetAttr p
               = ReplaceExtCommunityAndLocate (GetAttr src_path) community).
Proof.
  split.
  { intros t Hbuilt. pose proof (Replicated_unique t Hbuilt) as Huniq.
    split; [exact Huniq|].
    intros rtp r Hrtp Hr src_table src_rt src peer path_id.
    specialize (Huniq rtp r Hrtp Hr src_rt src peer path_id).
    unfold secondary_count in Huniq.
    etransitivity; [|exact Huniq].
    apply filter_length_mono. intros p. apply provenance_source_secondary. }
  split; [exact RouteReplicate_remove_succeeds|].
  intros t src_table src_rt src_path community fresh dest t' Huniq Hrun.
  destruct (RouteReplicate_Some_post _ _ _ _ _ _ _ _ Huniq Hrun)
    as (Huniq' & dest_route & p & Hfind & Hthis & Hcount & Hsec & Hattr & _).
  split; [exact Huniq'|]. by exists dest_route, p.
Qed.

End ReplicationTheorems.

Section ReplicationRun2.
#[local] Existing Instance Sample.collaborators.

Lemma RouteReplicate_route_distinguisher_witness :
  RouteReplicate Sample.master_table (base Sample.blue_table)
    (InetMVpn Sample.src_route) Sample.src_path Sample.C1 200
    = Ok (Some 200, Sample.master_C1)
  ∧ exists is_default mroute dest_route,
      IsDefault (base Sample.master_table) = Ok is_default
      ∧ InetMVpn Sample.src_route = InetMVpn mroute
      ∧ FindRoute Sample.master_C1 (GetPrefix dest_route) = Some dest_route
      ∧ rt_this dest_route = 200
      ∧ route_distinguisher (GetPrefix dest_route)
          = (if is_default then source_rd (GetAttr Sample.src_path)
             else null_rd)
      ∧ type (GetPrefix dest_route) = type (GetPrefix mroute)
      ∧ group (GetPrefix dest_route) = group (GetPrefix mroute)
      ∧ source (GetPrefix dest_route) = source (GetPrefix mroute).
Proof.
  split; [reflexivity|].
  apply (RouteReplicate_route_distinguisher Sample.master_table
           (base Sample.blue_table) (InetMVpn Sample.src_route)
           Sample.src_path Sample.C1 200 200 Sample.master_C1).
  reflexivity.
Defined.

Lemma RouteReplicate_idempotent_witness :
  RouteReplicate Sample.master_table (base Sample.blue_table)
    (InetMVpn Sample.src_route) Sample.src_path Sample.C1 200
    = Ok (Some 200, Sample.master_C1)
  ∧ RouteReplicate Sample.master_C1 (base Sample.blue_table)
      (InetMVpn Sample.src_route) Sample.src_path Sample.C1 201
    = Ok (Some 200, Sample.master_C1).
Proof.
  split; [reflexivity|].
  apply (RouteReplicate_idempotent Sample.master_table
           (base Sample.blue_table) (InetMVpn Sample.src_route)
           Sample.src_path Sample.C1 200 200 Sample.master_C1);
    [apply TableUnique_empty; repeat constructor | reflexivity].
Defined.

(** The scenario of the specification: the route replicated with
    community C1 and then with C2 keeps one path, which carries C2. *)
Lemma RouteReplicate_secondary_unique_witness :
  RouteReplicate Sample.master_C1 (base Sample.blue_table)
    (InetMVpn Sample.src_route) Sample.src_path Sample.C2 201
    = Ok (Some 200, Sample.master_C2)
  ∧ TableUnique Sample.master_C2
  ∧ FindRoute Sample.master_C2 Sample.dest_prefix
      = Some (Sample.dest_route
                [Sample.replicated Sample.src_path Sample.C2]).
Proof.
  split; [reflexivity|]. split; [|reflexivity].
  destruct RouteReplicate_secondary_unique as (Hever & _ & Hstep).
  apply (Hstep Sample.master_C1 (base Sample.blue_table)
           (InetMVpn Sample.src_route) Sample.src_path Sample.C2 201
           200 Sample.master_C2); [|reflexivity].
  apply Hever.
  apply (Replicated_step Sample.master_table (base Sample.blue_table)
           (InetMVpn Sample.src_route) Sample.src_path Sample.C1 200
           (Some 200) Sample.master_C1);
    [apply Replicated_empty; repeat constructor | reflexivity].
Defined.

(** C3 as stated fails: a source route with two paths that have no
    peer and path id 0, originated by two path sources, is replicated
    path by path; the destination route then holds two secondary paths
    with one source table, source route, peer and path id. *)
Lemma RouteReplicate_provenance_not_unique :
  RouteReplicate Sample.master_table (base Sample.blue_table)
    (InetMVpn Sample.src_route) Sample.chain_path Sample.C1 200
    = Ok (Some 200, Sample.master_chain)
  ∧ RouteReplicate Sample.master_chain (base Sample.blue_table)
      (InetMVpn Sample.src_route) Sample.static_path Sample.C1 201
    = Ok (Some 200, Sample.master_two_sources)
  ∧ FindRoute Sample.master_two_sources Sample.dest_prefix
    = Some (Sample.dest_route
              [Sample.replicated Sample.chain_path Sample.C1;
               Sample.replicated Sample.static_path Sample.C1])
  ∧ provenance_count
      (Sample.dest_route
         [Sample.replicated Sample.chain_path Sample.C1;
          Sample.replicated Sample.static_path Sample.C1])
      "blue.mvpn.0" 100 None 0 = 2%nat.
Proof. repeat split. Qed.

End ReplicationRun2.

(** * Further properties of replication *)

Section ReplicationRun3.
Context `{Collaborators}.

(** What [RouteReplicate] computes once its checks are passed. *)
Lemma RouteReplicate_run (t : InetMVpnTable) (src_table : BgpTable)
    (mroute : InetMVpnRoute) (src_path : BgpPath)
    (community : ExtCommunityPtr) (fresh : RoutePtr) (is_default : bool)
    (idx : nat) (rtp : DBTablePartition) :
  family src_table = INETMVPN ->
  IsDefault (base t) = Ok is_default ->
  (is_default = false -> IsDefault src_table = Ok true) ->
  type (GetPrefix mroute) ≠ NativeRoute ->
  let mprefix :=
    set_route_distinguisher (GetPrefix mroute)
      (if is_default then source_rd (GetAttr src_path) else null_rd) in
  GetTablePartition (base t) (new_InetMVpnRoute 0 mprefix)
    = Ok (idx, rtp) ->
  let new_attr :=
    ReplaceExtCommunityAndLocate (GetAttr src_path) community in
  let replicated_path :=
    SetReplicateInfo
      (BgpSecondaryPath (GetPeer src_path) (GetPathId src_path)
         (GetSource src_path) new_attr
         (GetFlags src_path) (GetLabel src_path))
      (name src_table) (rt_this mroute) in
  let key := secondary_match (rt_this mroute) (GetSource src_path)
               (GetPeer src_path) (GetPathId src_path) in
  let dest_route :=
    match Find rtp mprefix with
    | Some r => ClearDelete r
    | None => new_InetMVpnRoute fresh mprefix
    end in
  let rtp1 :=
    match Find rtp mprefix with
    | Some r => Store rtp (ClearDelete r)
    | None => Add rtp (new_InetMVpnRoute fresh mprefix)
    end in
  let insert := fun d : InetMVpnRoute =>
    let d' := InsertPath d replicated_path in
    Ok (Some (rt_this d'),
        set_base t
          (set_partition (base t) idx
             (if decide (front d' = Some replicated_path)
              then Notify (Store rtp1 d') d' else Store rtp1 d'))) in
  RouteReplicate t src_table (InetMVpn mroute) src_path community fresh
  = match find_first key (rt_paths dest_route) with
    | Some p =>
        if decide (new_attr = GetAttr p)
        then Ok (Some (rt_this dest_route),
                 set_base t (set_partition (base t) idx rtp1))
        else match remove_first key (rt_paths dest_route) with
             | Some l => insert (set_paths dest_route l)
             | None => Fault AssertRemove
             end
    | None => insert dest_route
    end.
Proof.
  intros Hfam Hdefault Hsrc Hnative mprefix Hpart new_attr rp key
    dest_route rtp1 insert.
  unfold RouteReplicate.
  rewrite bool_decide_eq_true_2 by done. simpl.
  rewrite Hdefault. simpl.
  assert ((if is_default then Ok false else negb <$> IsDefault src_table)
          = Ok false) as ->.
  { destruct is_default; [done|]. by rewrite Hsrc. }
  simpl. rewrite decide_False by done.
  assert ((if is_default
           then set_route_distinguisher (GetPrefix mroute)
                  (source_rd (GetAttr src_path))
           else set_route_distinguisher (GetPrefix mroute) null_rd)
          = mprefix) as -> by (by destruct is_default).
  rewrite Hpart. simpl.
  unfold FindSecondaryPath, RemoveSecondaryPath.
  subst dest_route rtp1 insert. fold new_attr rp key.
  destruct (Find rtp mprefix) as [r|]; simpl.
  - destruct (find_first key (rt_paths r)) as [p|]; [|done].
    destruct (decide (new_attr = GetAttr p)) as [Heq|Hne].
    + by rewrite decide_False by (by intros []).
    + rewrite decide_True by done.
      by destruct (remove_first key (rt_paths r)).
  - done.
Qed.

(** The same, read from a call that returned a route. *)
Lemma RouteReplicate_Some_run (t : InetMVpnTable) (src_table : BgpTable)
    (src_rt : BgpRoute) (src_path : BgpPath) (community : ExtCommunityPtr)
    (fresh : RoutePtr) (dest : RoutePtr) (t' : InetMVpnTable) :
  RouteReplicate t src_table src_rt src_path community fresh
    = Ok (Some dest, t') ->
  exists is_default mroute idx rtp,
    IsDefault (base t) = Ok is_default
    ∧ src_rt = InetMVpn mroute
    ∧ let mprefix :=
        set_route_distinguisher (GetPrefix mroute)
          (if is_default then source_rd (GetAttr src_path) else null_rd) in
      let new_attr :=
        ReplaceExtCommunityAndLocate (GetAttr src_path) community in
      let replicated_path :=
        SetReplicateInfo
          (BgpSecondaryPath (GetPeer src_path) (GetPathId src_path)
             (GetSource src_path) new_attr
             (GetFlags src_path) (GetLabel src_path))
          (name src_table) (rt_this mroute) in
      let key := secondary_match (rt_this mroute) (GetSource src_path)
                   (GetPeer src_path) (GetPathId src_path) in
      let d0 :=
        match Find rtp mprefix with
        | Some r => ClearDelete r
        | None => new_InetMVpnRoute fresh mprefix
        end in
      let rtp1 :=
        match Find rtp mprefix with
        | Some r => Store rtp (ClearDelete r)
        | None => Add rtp (new_InetMVpnRoute fresh mprefix)
        end in
      GetTablePartition (base t) (new_InetMVpnRoute 0 mprefix)
        = Ok (idx, rtp)
      ∧ dest = rt_this d0
      ∧ exists d rtp',
          t' = set_base t (set_partition (base t) idx rtp')
          ∧ ((exists p, find_first key (rt_paths d0) = Some p
                        ∧ new_attr = GetAttr p ∧ d = d0 ∧ rtp' = rtp1)
             ∨ (exists l,
                  (find_first key (rt_paths d0) = None ∧ l = rt_paths d0
                   ∨ exists p, find_first key (rt_paths d0) = Some p
                               ∧ new_attr ≠ GetAttr p
                               ∧ remove_first key (rt_paths d0) = Some l)
                  ∧ d = set_paths d0 (insert_path replicated_path l)
                  ∧ rtp' = if decide (front d = Some replicated_path)
                           then Notify (Store rtp1 d) d
                           else Store rtp1 d)).
Proof.
  intros Hrun.
  destruct (RouteReplicate_Some_inv _ _ _ _ _ _ _ _ Hrun)
    as (is_default & mroute & idx & rtp & _ & _ & Hdefault
        & Hfam & Hsrc & -> & Hnative & Hpart & _).
  exists is_default, mroute, idx, rtp.
  split; [done|]. split; [done|]. cbv zeta.
  rewrite (RouteReplicate_run t src_table mroute src_path community fresh
             is_default idx rtp Hfam Hdefault Hsrc Hnative Hpart) in Hrun.
  cbv zeta in Hrun.
  set (mprefix := set_route_distinguisher (GetPrefix mroute) _) in *.
  set (new_attr := ReplaceExtCommunityAndLocate _ _) in *.
  set (rp := SetReplicateInfo _ _ _) in *.
  set (key := secondary_match _ _ _ _) in *.
  set (d0 := match Find rtp mprefix with
             | Some r => ClearDelete r
             | None => new_InetMVpnRoute fresh mprefix
             end) in *.
  set (rtp1 := match Find rtp mprefix with
               | Some r => Store rtp (ClearDelete r)
               | None => Add rtp (new_InetMVpnRoute fresh mprefix)
               end) in *.
  split; [done|].
  destruct (find_first key (rt_paths d0)) as [p|] eqn:Hsec.
  - destruct (decide (new_attr = GetAttr p)) as [Heq|Hne].
    + injection Hrun as <- <-. split; [done|].
      exists d0, rtp1. split; [done|]. left. by exists p.
    + destruct (remove_first key (rt_paths d0)) as [l|] eqn:Hrem;
        [|discriminate].
      injection Hrun as <- <-. split; [done|].
      eexists _, _. split; [reflexivity|]. right. exists l.
      split; [|done]. right. by exists p.
  - injection Hrun as <- <-. split; [done|].
    eexists _, _. split; [reflexivity|]. right. exists (rt_paths d0).
    split; [by left|done].
Qed.

End ReplicationRun3.

Section ReplicationFaults.
Context `{Collaborators}.

Lemma IsDefault_Fault_inv (b : BgpTable) (k : FaultKind) :
  IsDefault b = Fault k -> k = NullDeref ∧ rtinstance_ b = None.
Proof.
  unfold IsDefault. destruct (rtinstance_ b); simpl; [discriminate|].
  by intros [= <-].
Qed.

(** Why a call of [RouteReplicate] can abort. *)
Lemma RouteReplicate_Fault_inv (t : InetMVpnTable) (src_table : BgpTable)
    (src_rt : BgpRoute) (src_path : BgpPath) (community : ExtCommunityPtr)
    (fresh : RoutePtr) (k : FaultKind) :
  RouteReplicate t src_table src_rt src_path community fresh = Fault k ->
  (k = AssertFamily ∧ family src_table ≠ INETMVPN)
  ∨ (family src_table = INETMVPN
     ∧ ((k = NullDeref
         ∧ (rtinstance_ (base t) = None ∨ rtinstance_ src_table = None))
        ∨ (k = AssertRoute ∧ exists a, src_rt = OtherRoute a)
        ∨ (k = NoPartition
           ∧ exists entry,
               (length (partitions (base t))
                <= Z.to_nat (Hash entry))%nat))).
Proof.
  unfold RouteReplicate. intros Hrun.
  destruct (decide (family src_table = INETMVPN)) as [Hfam|Hfam].
  2:{ rewrite bool_decide_eq_false_2 in Hrun by done.
      left. split; [|done]. by injection Hrun. }
  right. split; [done|].
  rewrite bool_decide_eq_true_2 in Hrun by done. simpl in Hrun.
  destruct (IsDefault (base t)) as [is_default|k0] eqn:Hd;
    simpl in Hrun.
  2:{ apply IsDefault_Fault_inv in Hd as [-> Hnone].
      left. split; [by injection Hrun|by left]. }
  destruct (if is_default then Ok false
            else negb <$> IsDefault src_table) as [b|k0] eqn:Hvpn;
    simpl in Hrun.
  2:{ destruct is_default; [discriminate|].
      destruct (IsDefault src_table) as [?|k1] eqn:Hs; [discriminate|].
      apply IsDefault_Fault_inv in Hs as [-> Hnone]. simpl in Hvpn.
      left. split; [congruence|by right]. }
  destruct b; [discriminate|].
  destruct src_rt as [mroute|a]; simpl in Hrun.
  2:{ right. left. split; [by injection Hrun|by exists a]. }
  destruct (decide (type (GetPrefix mroute) = NativeRoute));
    [discriminate|].
  unfold GetTablePartition in Hrun.
  match type of Hrun with
  | context [partitions (base t) !! Z.to_nat (Hash ?e)] =>
      destruct (partitions (base t) !! Z.to_nat (Hash e)) as [rtp|]
        eqn:Hpart
  end; simpl in Hrun.
  2:{ right. right. split; [by injection Hrun|].
      eexists. by apply lookup_ge_None_1 in Hpart. }
  exfalso.
  match type of Hrun with
  | context [match Find rtp ?k with Some _ => _ | None => _ end] =>
      destruct (match Find rtp k with
                | Some dest_route =>
                    (ClearDelete dest_route,
                     Store rtp (ClearDelete dest_route))
                | None =>
                    (new_InetMVpnRoute fresh k,
                     Add rtp (new_InetMVpnRoute fresh k))
                end) as [d0 rtp1]
  end.
  unfold FindSecondaryPath, RemoveSecondaryPath in Hrun.
  destruct (find_first _ (rt_paths d0)) as [p|] eqn:Hsec; [|discriminate].
  destruct (decide (_ ≠ GetAttr p)); [|discriminate].
  destruct (remove_first_found _ _ _ Hsec) as [l Hl].
  rewrite Hl in Hrun. discriminate.
Qed.

(** X1. With a positive [DB::PartitionCount()]: [RouteReplicate]
    aborts on the family assertion of line 72 whenever the source table
    is of another family than inet-mvpn.  On an inet-mvpn source table,
    the table the cast of line 74 is made for, it aborts only on a
    table or source table without routing instance, on a source route
    that is not an inet-mvpn route, and on a partition index below
    [DB::PartitionCount()] that the table has no partition for; the
    removal assertion never fails. *)
Theorem RouteReplicate_faults (t : InetMVpnTable) (src_table : BgpTable)
    (src_rt : BgpRoute) (src_path : BgpPath) (community : ExtCommunityPtr)
    (fresh : RoutePtr) :
  0 < PartitionCount ->
  (family src_table ≠ INETMVPN ->
   RouteReplicate t src_table src_rt src_path community fresh
     = Fault AssertFamily)
  ∧ (family src_table = INETMVPN ->
     forall k,
       RouteReplicate t src_table src_rt src_path community fresh
         = Fault k ->
       (k = NullDeref
        ∧ (rtinstance_ (base t) = None ∨ rtinstance_ src_table = None))
       ∨ (k = AssertRoute ∧ exists a, src_rt = OtherRoute a)
       ∨ (k = NoPartition
          ∧ exists entry,
              (length (partitions (base t)) <= Z.to_nat (Hash entry)
               < Z.to_nat PartitionCount)%nat)).
Proof.
  intros Hcount. split.
  - intros Hfam. unfold RouteReplicate.
    by rewrite bool_decide_eq_false_2.
  - intros Hfam k Hrun.
    destruct (RouteReplicate_Fault_inv _ _ _ _ _ _ _ Hrun)
      as [[_ Hother] | [_ Hk]]; [done|].
    destruct Hk as [Hk | [Hk | [-> [entry Hlen]]]];
      [by left | by right; left |].
    right. right. split; [done|]. exists entry. split; [done|].
    unfold Hash.
    pose proof (Z.mod_pos_bound (HashFunction (GetPrefix entry))
                  PartitionCount Hcount).
    lia.
Qed.

End ReplicationFaults.

Section ReplicationResults.
Context `{Collaborators}.

(** X2. Whenever [RouteReplicate] returns NULL the table is as it was,
    and the call was either from a non-default table into a non-default
    table or on a [NativeRoute]. *)
Theorem RouteReplicate_null (t : InetMVpnTable) (src_table : BgpTable)
    (src_rt : BgpRoute) (src_path : BgpPath) (community : ExtCommunityPtr)
    (fresh : RoutePtr) (t' : InetMVpnTable) :
  RouteReplicate t src_table src_rt src_path community fresh
    = Ok (None, t') ->
  t' = t
  ∧ ((IsDefault (base t) = Ok false ∧ IsDefault src_table = Ok false)
     ∨ exists mroute,
         src_rt = InetMVpn mroute
         ∧ type (GetPrefix mroute) = NativeRoute).
Proof.
  intros Hrun. split; [by eapply RouteReplicate_None_inv|].
  unfold RouteReplicate in Hrun.
  destruct (bool_decide (family src_table = INETMVPN));
    simpl in Hrun; [|discriminate].
  destruct (IsDefault (base t)) as [is_default|];
    simpl in Hrun; [|discriminate].
  destruct is_default; simpl in Hrun.
  - right. destruct src_rt as [mroute|]; simpl in Hrun; [|discriminate].
    destruct (decide (type (GetPrefix mroute) = NativeRoute));
      [by exists mroute|].
    exfalso.
    destruct (GetTablePartition _ _) as [[idx rtp]|];
      simpl in Hrun; [|discriminate].
    destruct (match Find rtp _ with Some _ => _ | None => _ end)
      as [d0 rtp1].
    destruct (FindSecondaryPath d0 _ _ _ _) as [p|]; [|discriminate].
    destruct (decide (_ ≠ GetAttr p)); [|discriminate].
    destruct (RemoveSecondaryPath d0 _ _ _ _) as [[|] d1];
      simpl in Hrun; discriminate.
  - destruct (IsDefault src_table) as [[|]|]; simpl in Hrun;
      [|by left|discriminate].
    right. destruct src_rt as [mroute|]; simpl in Hrun; [|discriminate].
    destruct (decide (type (GetPrefix mroute) = NativeRoute));
      [by exists mroute|].
    exfalso.
    destruct (GetTablePartition _ _) as [[idx rtp]|];
      simpl in Hrun; [|discriminate].
    destruct (match Find rtp _ with Some _ => _ | None => _ end)
      as [d0 rtp1].
    destruct (FindSecondaryPath d0 _ _ _ _) as [p|]; [|discriminate].
    destruct (decide (_ ≠ GetAttr p)); [|discriminate].
    destruct (RemoveSecondaryPath d0 _ _ _ _) as [[|] d1];
      simpl in Hrun; discriminate.
Qed.

Lemma Hash_lt_PartitionCount (entry : InetMVpnRoute) :
  0 < PartitionCount ->
  (Z.to_nat (Hash entry) < Z.to_nat PartitionCount)%nat.
Proof.
  intros Hcount. unfold Hash.
  pose proof (Z.mod_pos_bound (HashFunction (GetPrefix entry))
                PartitionCount Hcount).
  lia.
Qed.

(** X3. On a table with [DB::PartitionCount()] partitions and a routing
    instance, [RouteReplicate] of an inet-mvpn route from an inet-mvpn
    table with a routing instance returns, and the table it leaves has
    the same number of partitions. *)
Theorem RouteReplicate_returns (t : InetMVpnTable) (src_table : BgpTable)
    (mroute : InetMVpnRoute) (src_path : BgpPath)
    (community : ExtCommunityPtr) (fresh : RoutePtr) :
  0 < PartitionCount ->
  TableShaped (base t) ->
  family src_table = INETMVPN ->
  is_Some (rtinstance_ (base t)) ->
  is_Some (rtinstance_ src_table) ->
  exists r t',
    RouteReplicate t src_table (InetMVpn mroute) src_path community fresh
      = Ok (r, t')
    ∧ TableShaped (base t').
Proof.
  intros Hcount Hshape Hfam [ri Hri] [sri Hsri].
  destruct (RouteReplicate t src_table (InetMVpn mroute) src_path
              community fresh) as [[r t']|k] eqn:Hrun.
  - exists r, t'. split; [done|]. destruct r as [dest|].
    + destruct (RouteReplicate_Some_inv _ _ _ _ _ _ _ _ Hrun)
        as (? & ? & idx & rtp & ? & rtp' & _ & _ & _ & _ & _ & _ & -> & _).
      unfold TableShaped in *. simpl. by rewrite length_insert.
    + by rewrite (RouteReplicate_None_inv _ _ _ _ _ _ _ Hrun).
  - exfalso.
    destruct (RouteReplicate_Fault_inv _ _ _ _ _ _ _ Hrun)
      as [[_ ?] | [_ [[_ [?|?]] | [[_ [a ?]] | [_ [entry Hlen]]]]]];
      try congruence.
    pose proof (Hash_lt_PartitionCount entry Hcount).
    unfold TableShaped in Hshape. lia.
Qed.

End ReplicationResults.

Section Frame.
Context `{Collaborators}.

Lemma store_prefixes (r' : InetMVpnRoute) (l : list InetMVpnRoute) :
  GetPrefix <$> store r' l = GetPrefix <$> l.
Proof.
  induction l as [|x l IH]; [done|]. cbn [store].
  destruct (decide (GetPrefix x = GetPrefix r')) as [Hx|Hx];
    rewrite !fmap_cons.
  - by rewrite Hx.
  - by rewrite IH.
Qed.

Lemma find_first_store_ne (k : InetMVpnPrefix) (r' : InetMVpnRoute)
    (l : list InetMVpnRoute) :
  GetPrefix r' ≠ k ->
  find_first (fun r => GetPrefix r = k) (store r' l)
    = find_first (fun r => GetPrefix r = k) l.
Proof.
  intros Hk. induction l as [|x l IH]; [done|]. simpl.
  destruct (decide (GetPrefix x = GetPrefix r')) as [Hx|Hx]; simpl.
  - rewrite !decide_False by congruence. done.
  - destruct (decide (GetPrefix x = k)); [done|]. exact IH.
Qed.

Lemma find_first_app_ne {A} (P : A -> Prop) `{!forall x, Decision (P x)}
    (l : list A) (x : A) :
  ¬ P x -> find_first P (l ++ [x]) = find_first P l.
Proof.
  intros Hx. induction l as [|y l IH]; simpl.
  - by rewrite decide_False.
  - by destruct (decide (P y)).
Qed.

Lemma filter_insert_path (Q : BgpPath -> Prop) `{!forall x, Decision (Q x)}
    (p : BgpPath) (l : list BgpPath) :
  ¬ Q p -> filter Q (insert_path p l) = filter Q l.
Proof.
  intros Hp. induction l as [|q l IH]; simpl.
  - by rewrite filter_cons_False.
  - destruct (PathSelection p q).
    + by rewrite filter_cons_False.
    + rewrite !(filter_cons Q q). by rewrite IH.
Qed.

Lemma remove_first_others {A} (P : A -> Prop) `{!forall x, Decision (P x)}
    (l l' : list A) :
  remove_first P l = Some l' ->
  filter (fun x => ¬ P x) l' = filter (fun x => ¬ P x) l.
Proof.
  revert l'. induction l as [|x l IH]; [discriminate|]. simpl. intros l'.
  destruct (decide (P x)) as [Hx|Hx].
  - intros [= <-]. by rewrite filter_cons_False by (by intros Hn).
  - destruct (remove_first P l) as [l0|]; [|discriminate].
    intros [= <-]. rewrite !filter_cons_True by done.
    by rewrite (IH l0).
Qed.

Lemma remove_first_length {A} (P : A -> Prop) `{!forall x, Decision (P x)}
    (l l' : list A) :
  remove_first P l = Some l' -> length l = S (length l').
Proof.
  revert l'. induction l as [|x l IH]; [discriminate|]. simpl. intros l'.
  destruct (decide (P x)) as [Hx|Hx].
  - by intros [= <-].
  - destruct (remove_first P l) as [l0|]; [|discriminate].
    intros [= <-]. simpl. by rewrite (IH l0).
Qed.

Lemma remove_first_elem {A} (P : A -> Prop) `{!forall x, Decision (P x)}
    (l l' : list A) (y : A) :
  remove_first P l = Some l' -> y ∈ l' -> y ∈ l.
Proof.
  revert l'. induction l as [|x l IH]; [discriminate|]. simpl. intros l'.
  destruct (decide (P x)) as [Hx|Hx].
  - intros [= <-] Hy. by apply list_elem_of_further.
  - destruct (remove_first P l) as [l0|]; [|discriminate].
    intros [= <-] [->|Hy]%elem_of_cons.
    + apply list_elem_of_here.
    + apply list_elem_of_further. by apply (IH l0).
Qed.

Lemma Find_None_prefixes (rtp : DBTablePartition) (k : InetMVpnPrefix) :
  Find rtp k = None -> k ∉ GetPrefix <$> tree rtp.
Proof.
  unfold Find. intros Hnone (r & -> & Hr)%list_elem_of_fmap.
  apply (find_first_None (fun x => GetPrefix x = GetPrefix r)) in Hnone.
  by apply (filter_nil_not_elem_of _ _ r) in Hnone.
Qed.

(** The destination route as [RouteReplicate] finds or creates it, and
    the partition with it. *)
Lemma found_or_created (rtp : DBTablePartition) (k : InetMVpnPrefix)
    (fresh : RoutePtr) :
  let d0 := match Find rtp k with
            | Some r => ClearDelete r
            | None => new_InetMVpnRoute fresh k
            end in
  let rtp1 := match Find rtp k with
              | Some r => Store rtp (ClearDelete r)
              | None => Add rtp (new_InetMVpnRoute fresh k)
              end in
  GetPrefix d0 = k
  ∧ IsDeleted d0 = false
  ∧ rt_this d0 = match Find rtp k with
                 | Some r => rt_this r
                 | None => fresh
                 end
  ∧ rt_paths d0 = match Find rtp k with
                  | Some r => rt_paths r
                  | None => []
                  end
  ∧ Find rtp1 k = Some d0
  ∧ (forall k', k' ≠ k -> Find rtp1 k' = Find rtp k')
  ∧ change_list rtp1 = change_list rtp
  ∧ GetPrefix <$> tree rtp1
    = (GetPrefix <$> tree rtp)
      ++ match Find rtp k with Some _ => [] | None => [k] end
  ∧ (forall d x, GetPrefix d = k ->
       x ∈ store d (tree rtp1) -> x = d ∨ x ∈ tree rtp).
Proof.
  intros d0 rtp1. subst d0 rtp1.
  destruct (Find rtp k) as [r|] eqn:Hfind.
  - destruct (Find_prefix _ _ _ Hfind) as [Hk _].
    destruct (Find_Store rtp k r (ClearDelete r) Hfind Hk) as [Hf _].
    split_and!; try done.
    + intros k' Hne. unfold Find, Store. simpl.
      apply find_first_store_ne. simpl. congruence.
    + simpl. by rewrite store_prefixes, app_nil_r.
    + intros d x Hd. simpl. rewrite store_store by (by rewrite Hd).
      apply elem_of_store.
  - destruct (Find_Add rtp k (new_InetMVpnRoute fresh k) Hfind eq_refl)
      as [Hf _].
    split_and!; try done.
    + intros k' Hne. unfold Find, Add. simpl.
      apply find_first_app_ne. simpl. congruence.
    + simpl. by rewrite fmap_app.
    + intros d x Hd. simpl. rewrite store_app_new by done.
      rewrite elem_of_app, list_elem_of_singleton. tauto.
Qed.

(** The partition after the changed route is written back. *)
Lemma written_back (rtp1 rtp' : DBTablePartition) (k : InetMVpnPrefix)
    (d0 d : InetMVpnRoute) :
  Find rtp1 k = Some d0 -> GetPrefix d = k ->
  rtp' = Notify (Store rtp1 d) d ∨ rtp' = Store rtp1 d ->
  Find rtp' k = Some d
  ∧ (forall k', k' ≠ k -> Find rtp' k' = Find rtp1 k')
  ∧ GetPrefix <$> tree rtp' = GetPrefix <$> tree rtp1
  ∧ tree rtp' = store d (tree rtp1).
Proof.
  intros Hfind Hk Hrtp.
  destruct (Find_Store rtp1 k d0 d Hfind Hk) as [Hf _].
  assert (forall k', k' ≠ k -> Find (Store rtp1 d) k' = Find rtp1 k')
    as Hne.
  { intros k' Hk'. unfold Find, Store. simpl.
    apply find_first_store_ne. congruence. }
  destruct Hrtp as [-> | ->]; simpl; by rewrite store_prefixes.
Qed.

Lemma Hash_set_route_distinguisher (this : RoutePtr) (r : InetMVpnRoute)
    (rd : RouteDistinguisher) :
  Hash (new_InetMVpnRoute this (set_route_distinguisher (GetPrefix r) rd))
    = Hash r.
Proof. reflexivity. Qed.

(** The table a call of [RouteReplicate] that returned a route leaves
    behind, in full. *)
Lemma RouteReplicate_Some_full (t : InetMVpnTable) (src_table : BgpTable)
    (src_rt : BgpRoute) (src_path : BgpPath) (community : ExtCommunityPtr)
    (fresh : RoutePtr) (dest : RoutePtr) (t' : InetMVpnTable) :
  RouteReplicate t src_table src_rt src_path community fresh
    = Ok (Some dest, t') ->
  exists is_default mroute rtp rtp' d,
    IsDefault (base t) = Ok is_default
    ∧ src_rt = InetMVpn mroute
    ∧ let mprefix :=
        set_route_distinguisher (GetPrefix mroute)
          (if is_default then source_rd (GetAttr src_path) else null_rd) in
      let new_attr :=
        ReplaceExtCommunityAndLocate (GetAttr src_path) community in
      let replicated_path :=
        SetReplicateInfo
          (BgpSecondaryPath (GetPeer src_path) (GetPathId src_path)
             (GetSource src_path) new_attr
             (GetFlags src_path) (GetLabel src_path))
          (name src_table) (rt_this mroute) in
      let key := secondary_match (rt_this mroute) (GetSource src_path)
                   (GetPeer src_path) (GetPathId src_path) in
      let idx := Z.to_nat (Hash mroute) in
      let old_paths := match Find rtp mprefix with
                       | Some r => rt_paths r
                       | None => []
                       end in
      partitions (base t) !! idx = Some rtp
      ∧ t' = set_base t (set_partition (base t) idx rtp')
      ∧ Find rtp' mprefix = Some d
      ∧ GetPrefix d = mprefix
      ∧ IsDeleted d = false
      ∧ rt_this d = dest
      ∧ dest = match Find rtp mprefix with
               | Some r => rt_this r
               | None => fresh
               end
      ∧ (forall k, k ≠ mprefix -> Find rtp' k = Find rtp k)
      ∧ GetPrefix <$> tree rtp'
        = (GetPrefix <$> tree rtp)
          ++ match Find rtp mprefix with Some _ => [] | None => [mprefix] end
      ∧ (forall x, x ∈ tree rtp' -> x = d ∨ x ∈ tree rtp)
      ∧ ((exists p, find_first key old_paths = Some p
                    ∧ new_attr = GetAttr p
                    ∧ rt_paths d = old_paths
                    ∧ change_list rtp' = change_list rtp)
         ∨ (exists l,
              (find_first key old_paths = None ∧ l = old_paths
               ∨ exists p, find_first key old_paths = Some p
                           ∧ new_attr ≠ GetAttr p
                           ∧ remove_first key old_paths = Some l)
              ∧ rt_paths d = insert_path replicated_path l
              ∧ change_list rtp'
                = change_list rtp
                  ++ if decide (front d = Some replicated_path)
                     then [dest] else [])).
Proof.
  intros Hrun.
  destruct (RouteReplicate_Some_run _ _ _ _ _ _ _ _ Hrun)
    as (is_default & mroute & idx & rtp & Hdefault & -> & Hpart & Hdest
        & d & rtp' & -> & Hcases).
  cbv zeta in *.
  set (mprefix := set_route_distinguisher (GetPrefix mroute) _) in *.
  set (new_attr := ReplaceExtCommunityAndLocate _ _) in *.
  set (rp := SetReplicateInfo _ _ _) in *.
  set (key := secondary_match _ _ _ _) in *.
  destruct (found_or_created rtp mprefix fresh)
    as (Hk0 & Hdel0 & Hthis0 & Hpaths0 & Hfind1 & Hne1 & Hchg1 & Hpre1
        & Hstore1).
  set (d0 := match Find rtp mprefix with
             | Some r => ClearDelete r
             | None => new_InetMVpnRoute fresh mprefix
             end) in *.
  set (rtp1 := match Find rtp mprefix with
               | Some r => Store rtp (ClearDelete r)
               | None => Add rtp (new_InetMVpnRoute fresh mprefix)
               end) in *.
  destruct (GetTablePartition_Ok _ _ _ _ Hpart) as [Hidx Hl].
  subst mprefix. rewrite Hash_set_route_distinguisher in Hidx.
  set (mprefix := set_route_distinguisher (GetPrefix mroute) _) in *.
  subst idx.
  exists is_default, mroute, rtp, rtp', d.
  split; [done|]. split; [done|]. cbv zeta. fold mprefix.
  rewrite <- Hpaths0, <- Hthis0.
  destruct Hcases as [(p & Hsec & Hattr & -> & ->)
                     | (l & Hl0 & -> & ->)].
  - split_and!; try done.
    + intros x Hx. apply (Hstore1 d0 x Hk0).
      rewrite store_found; [done|]. rewrite Hk0. exact Hfind1.
    + left. by exists p.
  - set (d := set_paths d0 (insert_path rp l)) in *.
    destruct (written_back rtp1
                (if decide (front d = Some rp)
                 then Notify (Store rtp1 d) d else Store rtp1 d)
                mprefix d0 d Hfind1 Hk0)
      as (Hf & Hne & Hpre & Htree);
      [by destruct (decide _); [left|right]|].
    split_and!; try done.
    + intros k Hk. by rewrite Hne, Hne1.
    + by rewrite Hpre.
    + intros x Hx. rewrite Htree in Hx. by apply (Hstore1 d x Hk0).
    + right. exists l. split_and!; try done.
      fold rp. rewrite <- Hchg1.
      destruct (decide (front d = Some rp)); simpl.
      * by rewrite Hdest.
      * by rewrite app_nil_r.
Qed.

End Frame.

Section ReplicationFrame.
Context `{Collaborators}.

Lemma Hash_prefix (r r' : InetMVpnRoute) :
  GetPrefix r = GetPrefix r' -> Hash r = Hash r'.
Proof. unfold Hash, HashFunction. by intros ->. Qed.

Lemma FindRoute_partition (t : InetMVpnTable) (k : InetMVpnPrefix)
    (rtp : DBTablePartition) :
  partitions (base t) !! Z.to_nat (Hash (new_InetMVpnRoute 0 k))
    = Some rtp ->
  FindRoute t k = Find rtp k.
Proof.
  intros Hl. unfold FindRoute, GetTablePartition. by rewrite Hl.
Qed.

Lemma FindRoute_other (t : InetMVpnTable) (idx : nat)
    (rtp rtp' : DBTablePartition) (k : InetMVpnPrefix) :
  partitions (base t) !! idx = Some rtp ->
  Find rtp' k = Find rtp k ->
  FindRoute (set_base t (set_partition (base t) idx rtp')) k
    = FindRoute t k.
Proof.
  intros Hl Hfind. unfold FindRoute, GetTablePartition. simpl.
  destruct (decide (Z.to_nat (Hash (new_InetMVpnRoute 0 k)) = idx))
    as [->|Hne].
  - rewrite list_lookup_insert_eq by (by eapply lookup_lt_Some).
    by rewrite Hl.
  - by rewrite list_lookup_insert_ne.
Qed.

Lemma FindRoute_rewritten (t : InetMVpnTable) (mroute : InetMVpnRoute)
    (rd : RouteDistinguisher) (rtp : DBTablePartition) :
  partitions (base t) !! Z.to_nat (Hash mroute) = Some rtp ->
  FindRoute t (set_route_distinguisher (GetPrefix mroute) rd)
    = Find rtp (set_route_distinguisher (GetPrefix mroute) rd).
Proof.
  intros Hl. apply FindRoute_partition.
  by rewrite Hash_set_route_distinguisher.
Qed.

Lemma lookup_set_partition (t : InetMVpnTable) (idx : nat)
    (rtp rtp' : DBTablePartition) :
  partitions (base t) !! idx = Some rtp ->
  partitions (base (set_base t (set_partition (base t) idx rtp'))) !! idx
    = Some rtp'.
Proof.
  intros Hl. simpl. apply list_lookup_insert_eq. by eapply lookup_lt_Some.
Qed.

(** X4. A call of [RouteReplicate] that returns leaves the tree
    manager, the name, the family, the routing instance and the number
    of partitions of the table alone.  Of the routes it changes none but
    the one it returns: every other prefix is looked up as before, and
    every other partition is as it was. *)
Theorem RouteReplicate_frame (t : InetMVpnTable) (src_table : BgpTable)
    (src_rt : BgpRoute) (src_path : BgpPath) (community : ExtCommunityPtr)
    (fresh : RoutePtr) (r : option RoutePtr) (t' : InetMVpnTable) :
  RouteReplicate t src_table src_rt src_path community fresh = Ok (r, t') ->
  tree_manager_ t' = tree_manager_ t
  ∧ name (base t') = name (base t)
  ∧ family (base t') = family (base t)
  ∧ rtinstance_ (base t') = rtinstance_ (base t)
  ∧ length (partitions (base t')) = length (partitions (base t))
  ∧ forall dest, r = Some dest ->
      exists d,
        FindRoute t' (GetPrefix d) = Some d
        ∧ rt_this d = dest
        ∧ (forall k, k ≠ GetPrefix d -> FindRoute t' k = FindRoute t k)
        ∧ (forall j, j ≠ Z.to_nat (Hash d) ->
             partitions (base t') !! j = partitions (base t) !! j).
Proof.
  intros Hrun. destruct r as [dest|].
  2:{ rewrite (RouteReplicate_None_inv _ _ _ _ _ _ _ Hrun).
      split_and!; try done. }
  destruct (RouteReplicate_Some_full _ _ _ _ _ _ _ _ Hrun)
    as (is_default & mroute & rtp & rtp' & d & _ & _ & Hl & -> & Hfind
        & Hk & _ & Hthis & _ & Hne & _).
  simpl. rewrite length_insert. split_and!; try done.
  intros dest' [= <-]. exists d.
  assert (Hash d = Hash mroute) as Hhash.
  { rewrite <- (Hash_set_route_distinguisher 0 mroute
                  (if is_default then source_rd (GetAttr src_path)
                   else null_rd)).
    by apply Hash_prefix. }
  rewrite Hhash. split_and!; try done.
  - rewrite Hk.
    rewrite (FindRoute_rewritten _ mroute _ rtp'); [done|].
    by eapply lookup_set_partition.
  - intros k Hkne. rewrite Hk in Hkne.
    apply FindRoute_other with (rtp := rtp); [done|]. by apply Hne.
  - intros j Hj. by rewrite list_lookup_insert_ne.
Qed.

(** X5. [RouteReplicate] reuses the route the table has for the
    destination prefix, marked deleted or not, and allocates only when
    there is none; the route it returns is not marked deleted. *)
Theorem RouteReplicate_reuses_route (t : InetMVpnTable)
    (src_table : BgpTable) (src_rt : BgpRoute) (src_path : BgpPath)
    (community : ExtCommunityPtr) (fresh : RoutePtr) (dest : RoutePtr)
    (t' : InetMVpnTable) :
  RouteReplicate t src_table src_rt src_path community fresh
    = Ok (Some dest, t') ->
  exists d,
    FindRoute t' (GetPrefix d) = Some d
    ∧ rt_this d = dest
    ∧ IsDeleted d = false
    ∧ match FindRoute t (GetPrefix d) with
      | Some r => dest = rt_this r
      | None => dest = fresh
      end.
Proof.
  intros Hrun.
  destruct (RouteReplicate_Some_full _ _ _ _ _ _ _ _ Hrun)
    as (is_default & mroute & rtp & rtp' & d & _ & _ & Hl & -> & Hfind
        & Hk & Hdel & Hthis & Hdest & _).
  exists d. rewrite Hk.
  split_and!; try done.
  - rewrite (FindRoute_rewritten _ mroute _ rtp'); [done|].
    by eapply lookup_set_partition.
  - rewrite (FindRoute_rewritten t mroute _ rtp Hl). rewrite Hdest.
    by destruct (Find rtp _).
Qed.

End ReplicationFrame.

Section ReplicationPaths.
Context `{Collaborators}.

(** X6. [RouteReplicate] keeps, in their order, all paths of the
    destination route that the lookup key of the source path does not
    answer to, primary paths among them; every path of the route after
    the call is the replicated path or a path the route had, and the
    route has at most one path more than before. *)
Theorem RouteReplicate_keeps_paths (t : InetMVpnTable)
    (src_table : BgpTable) (src_rt : BgpRoute) (src_path : BgpPath)
    (community : ExtCommunityPtr) (fresh : RoutePtr) (dest : RoutePtr)
    (t' : InetMVpnTable) :
  RouteReplicate t src_table src_rt src_path community fresh
    = Ok (Some dest, t') ->
  let replicated_path :=
    SetReplicateInfo
      (BgpSecondaryPath (GetPeer src_path) (GetPathId src_path)
         (GetSource src_path)
         (ReplaceExtCommunityAndLocate (GetAttr src_path) community)
         (GetFlags src_path) (GetLabel src_path))
      (name src_table) (route_ptr src_rt) in
  exists d,
    FindRoute t' (GetPrefix d) = Some d
    ∧ rt_this d = dest
    ∧ let old_paths := match FindRoute t (GetPrefix d) with
                       | Some r => rt_paths r
                       | None => []
                       end in
      other_paths (route_ptr src_rt) (GetSource src_path)
        (GetPeer src_path) (GetPathId src_path) (rt_paths d)
      = other_paths (route_ptr src_rt) (GetSource src_path)
          (GetPeer src_path) (GetPathId src_path) old_paths
      ∧ (forall q, q ∈ rt_paths d -> q = replicated_path ∨ q ∈ old_paths)
      ∧ (forall q, q ∈ old_paths -> secondary q = None -> q ∈ rt_paths d)
      ∧ (length (rt_paths d) <= S (length old_paths))%nat.
Proof.
  intros Hrun rp0.
  destruct (RouteReplicate_Some_full _ _ _ _ _ _ _ _ Hrun)
    as (is_default & mroute & rtp & rtp' & d & _ & -> & Hl & -> & Hfind
        & Hk & _ & Hthis & _ & _ & _ & _ & Hcases).
  subst rp0. simpl route_ptr. cbv zeta in Hcases.
  set (mprefix := set_route_distinguisher (GetPrefix mroute) _) in *.
  set (new_attr := ReplaceExtCommunityAndLocate _ _) in *.
  set (rp := SetReplicateInfo _ _ _) in *.
  set (key := secondary_match _ _ _ _) in *.
  exists d. rewrite Hk.
  subst mprefix. rewrite (FindRoute_rewritten t mroute _ rtp Hl).
  rewrite (FindRoute_rewritten _ mroute _ rtp');
    [|by eapply lookup_set_partition].
  set (mprefix := set_route_distinguisher (GetPrefix mroute) _) in *.
  split; [done|]. split; [done|]. cbv zeta.
  set (old_paths := match Find rtp mprefix with
                    | Some r => rt_paths r
                    | None => []
                    end) in *.
  assert (forall q, q ∈ old_paths -> secondary q = None ->
            q ∈ other_paths (rt_this mroute) (GetSource src_path)
                  (GetPeer src_path) (GetPathId src_path) old_paths)
    as Hprimary.
  { intros q Hq Hsec. unfold other_paths.
    rewrite list_elem_of_filter. split; [|done].
    intros [Hm _]. by rewrite Hsec in Hm. }
  assert (key rp) as Hrp by (by repeat split).
  unfold other_paths.
  destruct Hcases as [(p & Hsec & Hattr & -> & _) | (l & Hl0 & -> & _)].
  - split_and!; try done; [by right|lia].
  - assert (filter (fun q => ¬ key q) l = filter (fun q => ¬ key q) old_paths
            ∧ (forall q, q ∈ l -> q ∈ old_paths)
            ∧ (length l <= length old_paths)%nat) as (Hoth & Hsub & Hlen).
    { destruct Hl0 as [[_ ->] | (p & _ & _ & Hrem)]; [done|].
      split_and!.
      - by apply remove_first_others.
      - intros q. exact (remove_first_elem key old_paths l q Hrem).
      - rewrite (remove_first_length key old_paths l Hrem). lia. }
    split_and!.
    + rewrite filter_insert_path by (by intros Hn). exact Hoth.
    + intros q Hq. rewrite insert_path_perm in Hq.
      apply elem_of_cons in Hq as [->|Hq]; [by left|right; by apply Hsub].
    + intros q Hq Hsec. specialize (Hprimary q Hq Hsec).
      unfold other_paths in Hprimary. fold key in Hprimary.
      rewrite <- Hoth, <- (filter_insert_path _ rp l) in Hprimary
        by (by intros Hn).
      rewrite list_elem_of_filter in Hprimary. by destruct Hprimary.
    + rewrite insert_path_perm. simpl. lia.
Qed.

(** X7. [RouteReplicate] raises at most one notification, on the
    partition of the route it returns and for that route, and only when
    the replicated path has become the first path of the route; a route
    it has just created gets the replicated path as its only path and
    is always notified. *)
Theorem RouteReplicate_notifies (t : InetMVpnTable) (src_table : BgpTable)
    (src_rt : BgpRoute) (src_path : BgpPath) (community : ExtCommunityPtr)
    (fresh : RoutePtr) (dest : RoutePtr) (t' : InetMVpnTable) :
  RouteReplicate t src_table src_rt src_path community fresh
    = Ok (Some dest, t') ->
  let replicated_path :=
    SetReplicateInfo
      (BgpSecondaryPath (GetPeer src_path) (GetPathId src_path)
         (GetSource src_path)
         (ReplaceExtCommunityAndLocate (GetAttr src_path) community)
         (GetFlags src_path) (GetLabel src_path))
      (name src_table) (route_ptr src_rt) in
  exists d rtp rtp',
    partitions (base t) !! Z.to_nat (Hash d) = Some rtp
    ∧ partitions (base t') !! Z.to_nat (Hash d) = Some rtp'
    ∧ Find rtp' (GetPrefix d) = Some d
    ∧ rt_this d = dest
    ∧ (change_list rtp' = change_list rtp
       ∨ change_list rtp' = change_list rtp ++ [dest])
    ∧ (change_list rtp' = change_list rtp ++ [dest] ->
       front d = Some replicated_path)
    ∧ (Find rtp (GetPrefix d) = None ->
       rt_paths d = [replicated_path]
       ∧ change_list rtp' = change_list rtp ++ [dest]).
Proof.
  intros Hrun rp0.
  destruct (RouteReplicate_Some_full _ _ _ _ _ _ _ _ Hrun)
    as (is_default & mroute & rtp & rtp' & d & _ & -> & Hl & -> & Hfind
        & Hk & _ & Hthis & _ & _ & _ & _ & Hcases).
  subst rp0. simpl route_ptr. cbv zeta in Hcases.
  set (mprefix := set_route_distinguisher (GetPrefix mroute) _) in *.
  set (new_attr := ReplaceExtCommunityAndLocate _ _) in *.
  set (rp := SetReplicateInfo _ _ _) in *.
  set (key := secondary_match _ _ _ _) in *.
  assert (Hash d = Hash mroute) as Hhash.
  { rewrite <- (Hash_set_route_distinguisher 0 mroute
                  (if is_default then source_rd (GetAttr src_path)
                   else null_rd)).
    by apply Hash_prefix. }
  exists d, rtp, rtp'. rewrite Hhash, Hk.
  split; [done|]. split; [by eapply lookup_set_partition|].
  split; [done|]. split; [done|].
  destruct Hcases as [(p & Hsec & Hattr & Hpaths & Hchg)
                     | (l & Hl0 & Hpaths & Hchg)].
  - split_and!.
    + by left.
    + rewrite Hchg. intros Happ. apply (f_equal length) in Happ.
      rewrite length_app in Happ. simpl in Happ. lia.
    + intros Hnone. rewrite Hnone in Hsec. discriminate.
  - destruct (decide (front d = Some rp)) as [Hfront|Hfront].
    + split_and!; [by right|done|].
      intros Hnone. rewrite Hnone in Hl0. split; [|done].
      rewrite Hpaths.
      by destruct Hl0 as [[_ ->] | (p & Hp & _)].
    + rewrite app_nil_r in Hchg. split_and!.
      * by left.
      * rewrite Hchg. intros Happ. apply (f_equal length) in Happ.
        rewrite length_app in Happ. simpl in Happ. lia.
      * intros Hnone. rewrite Hnone in Hl0. exfalso. apply Hfront.
        unfold front. rewrite Hpaths.
        by destruct Hl0 as [[_ ->] | (p & Hp & _)].
Qed.

End ReplicationPaths.

Section ReplicationKeyed.
Context `{Collaborators}.

Lemma find_first_NoDup {A B} `{EqDecision B} (f : A -> B) (l : list A)
    (x : A) :
  NoDup (f <$> l) -> x ∈ l ->
  find_first (fun y => f y = f x) l = Some x.
Proof.
  induction l as [|y l IH]; [by intros _ ?%elem_of_nil|].
  rewrite fmap_cons, NoDup_cons. intros [Hy Hnd] Hx. simpl.
  apply elem_of_cons in Hx as [->|Hx].
  - by rewrite decide_True.
  - rewrite decide_False; [by apply IH|].
    intros Heq. apply Hy. rewrite Heq. by apply list_elem_of_fmap_2.
Qed.

Lemma TableKeyed_empty (t : BgpTable) :
  Forall (fun rtp => tree rtp = []) (partitions t) -> TableKeyed t.
Proof.
  intros Hempty i rtp Hl. rewrite Forall_forall in Hempty.
  rewrite (Hempty rtp) by (by eapply list_elem_of_lookup_2).
  split; [constructor|]. by intros r ?%elem_of_nil.
Qed.

Lemma RouteReplicate_keeps_keyed (t : InetMVpnTable) (src_table : BgpTable)
    (src_rt : BgpRoute) (src_path : BgpPath) (community : ExtCommunityPtr)
    (fresh : RoutePtr) (r : option RoutePtr) (t' : InetMVpnTable) :
  TableKeyed (base t) ->
  RouteReplicate t src_table src_rt src_path community fresh = Ok (r, t') ->
  TableKeyed (base t').
Proof.
  intros Hkeyed Hrun. destruct r as [dest|].
  2:{ by rewrite (RouteReplicate_None_inv _ _ _ _ _ _ _ Hrun). }
  destruct (RouteReplicate_Some_full _ _ _ _ _ _ _ _ Hrun)
    as (is_default & mroute & rtp & rtp' & d & _ & _ & Hl & -> & Hfind
        & Hk & _ & _ & _ & _ & Hpre & Helem & _).
  assert (Hash d = Hash mroute) as Hhash.
  { rewrite <- (Hash_set_route_distinguisher 0 mroute
                  (if is_default then source_rd (GetAttr src_path)
                   else null_rd)).
    by apply Hash_prefix. }
  destruct (Hkeyed _ _ Hl) as [Hnodup Hplaced].
  intros i rtp'' Hi. simpl in Hi.
  destruct (decide (i = Z.to_nat (Hash mroute))) as [->|Hne].
  - rewrite list_lookup_insert_eq in Hi by (by eapply lookup_lt_Some).
    injection Hi as <-. split.
    + rewrite Hpre. destruct (Find rtp _) eqn:Hold.
      * by rewrite app_nil_r.
      * apply NoDup_app. split_and!; [done| |apply NoDup_singleton].
        intros k Hin ->%list_elem_of_singleton.
        by apply (Find_None_prefixes _ _ Hold).
    + intros x Hx. destruct (Helem x Hx) as [->|Hold].
      * by rewrite Hhash.
      * by apply Hplaced.
  - rewrite list_lookup_insert_ne in Hi by done. by apply Hkeyed.
Qed.

(** X8. In every table that replication builds each route sits in the
    partition its prefix hashes to and no partition has two routes with
    one prefix; [RouteReplicate] keeps a table so, and in such a table
    every route of every partition is the route [FindRoute] gives for
    its prefix. *)
Theorem RouteReplicate_keyed :
  (forall t, Replicated t -> TableKeyed (base t))
  ∧ (forall t src_table src_rt src_path community fresh r t',
       TableKeyed (base t) ->
       RouteReplicate t src_table src_rt src_path community fresh
         = Ok (r, t') ->
       TableKeyed (base t'))
  ∧ (forall t i rtp x,
       TableKeyed (base t) ->
       partitions (base t) !! i = Some rtp -> x ∈ tree rtp ->
       FindRoute t (GetPrefix x) = Some x).
Proof.
  split_and!.
  - induction 1 as [t Hempty | t src_table src_rt src_path community fresh
                                r t' _ IH Hrun].
    + by apply TableKeyed_empty.
    + by eapply RouteReplicate_keeps_keyed.
  - exact RouteReplicate_keeps_keyed.
  - intros t i rtp x Hkeyed Hl Hx.
    destruct (Hkeyed _ _ Hl) as [Hnodup Hplaced].
    rewrite (FindRoute_partition t (GetPrefix x) rtp).
    + by apply find_first_NoDup.
    + rewrite (Hash_prefix _ x) by done. by rewrite (Hplaced x Hx).
Qed.

(** X9. The route distinguisher [RouteReplicate] writes does not move
    the route: the destination route is in the partition of the table
    with the index the source route hashes to. *)
Theorem RouteReplicate_partition (t : InetMVpnTable) (src_table : BgpTable)
    (mroute : InetMVpnRoute) (src_path : BgpPath)
    (community : ExtCommunityPtr) (fresh : RoutePtr) (dest : RoutePtr)
    (t' : InetMVpnTable) :
  RouteReplicate t src_table (InetMVpn mroute) src_path community fresh
    = Ok (Some dest, t') ->
  exists rtp' d,
    partitions (base t') !! Z.to_nat (Hash mroute) = Some rtp'
    ∧ Find rtp' (GetPrefix d) = Some d
    ∧ rt_this d = dest
    ∧ Hash d = Hash mroute.
Proof.
  intros Hrun.
  destruct (RouteReplicate_Some_full _ _ _ _ _ _ _ _ Hrun)
    as (is_default & mroute' & rtp & rtp' & d & _ & [= <-] & Hl & -> & Hfind
        & Hk & _ & Hthis & _).
  exists rtp', d. split; [by eapply lookup_set_partition|].
  rewrite Hk. split_and!; try done.
  rewrite <- (Hash_set_route_distinguisher 0 mroute
                (if is_default then source_rd (GetAttr src_path)
                 else null_rd)).
  by apply Hash_prefix.
Qed.

End ReplicationKeyed.

(** * Further properties of export *)

Section ExportMore.
Context `{Collaborators}.

(** X10. [Export] aborts in two cases only, both on a channel without
    the generic encoding and both a NULL dereference: the route is not
    an inet-mvpn route, or it is a [NativeRoute] without paths in a
    table whose tree manager is live. *)
Theorem Export_fault_iff (t : InetMVpnTable) (ribout : RibOut)
    (route : BgpRoute) (peerset : RibPeerSet)
    (uinfo_slist : UpdateInfoSList) (k : FaultKind) :
  Export t ribout route peerset uinfo_slist = Fault k <->
  k = NullDeref
  ∧ IsEncodingBgp ribout = false
  ∧ ((exists a, route = OtherRoute a)
     ∨ exists r tm,
         route = InetMVpn r
         ∧ type (GetPrefix r) = NativeRoute
         ∧ tree_manager_ t = Some tm
         ∧ tm_deleted tm = false
         ∧ rt_paths r = []).
Proof.
  unfold Export. split.
  - destruct (IsEncodingBgp ribout).
    { by destruct (GetUpdateInfo _ _ _ _). }
    destruct route as [r|a]; simpl.
    2:{ intros [= <-]. split_and!; try done. left. by exists a. }
    destruct (decide (type (GetPrefix r) ≠ NativeRoute)) as [Hty|Hty];
      [discriminate|].
    destruct (tree_manager_ t) as [tm|]; [|discriminate].
    destruct (tm_deleted tm) eqn:Hdel; [discriminate|].
    unfold BestPath, front.
    destruct (rt_paths r) as [|p l] eqn:Hpaths; simpl.
    + intros [= <-]. split_and!; try done. right. exists r, tm.
      split_and!; try done. by destruct (decide (type (GetPrefix r)
                                                 = NativeRoute)).
    + destruct (GetPeer p); [|discriminate].
      destruct (negb _); [discriminate|].
      destruct (negb _); [discriminate|].
      by destruct (tm_update_info tm r).
  - intros (-> & -> & [[a ->] | (r & tm & -> & Hty & -> & -> & Hpaths)]);
      simpl; [done|].
    rewrite decide_False by (by intros []).
    unfold BestPath, front. by rewrite Hpaths.
Qed.

(** X11. [Export] never drops or reorders the updates it is given: the
    list it leaves is the given list when it reports not-sent, and the
    given list with one update pushed on its front when it reports
    sent. *)
Theorem Export_pushes_one (t : InetMVpnTable) (ribout : RibOut)
    (route : BgpRoute) (peerset : RibPeerSet)
    (uinfo_slist l : UpdateInfoSList) (sent : bool) :
  Export t ribout route peerset uinfo_slist = Ok (sent, l) ->
  (sent = false ∧ l = uinfo_slist)
  ∨ (sent = true ∧ exists uinfo, l = uinfo :: uinfo_slist).
Proof.
  unfold Export. destruct (IsEncodingBgp ribout).
  { destruct (GetUpdateInfo _ _ _ _) as [u|]; intros [= <- <-];
      [right|left]; eauto. }
  destruct route as [r|a]; simpl; [|discriminate].
  destruct (decide (type (GetPrefix r) ≠ NativeRoute));
    [intros [= <- <-]; by left|].
  destruct (tree_manager_ t) as [tm|]; [|intros [= <- <-]; by left].
  destruct (tm_deleted tm); [intros [= <- <-]; by left|].
  destruct (BestPath r) as [p|]; simpl; [|discriminate].
  destruct (GetPeer p); [|intros [= <- <-]; by left].
  destruct (negb _); [intros [= <- <-]; by left|].
  destruct (negb _); [intros [= <- <-]; by left|].
  destruct (tm_update_info tm r); intros [= <- <-]; [right|left]; eauto.
Qed.

(** X12. [Export] reports sent in two cases only.  On a channel with
    the generic encoding: the generic computation gave the update that
    is pushed.  On a channel without it: the route is a [NativeRoute],
    the tree manager is present and not being deleted, the best path
    has a peer that is registered on the channel with its bit in the
    peer set, and the tree manager gave the update that is pushed with
    that bit set. *)
Theorem Export_sent_iff (t : InetMVpnTable) (ribout : RibOut)
    (route : BgpRoute) (peerset : RibPeerSet)
    (uinfo_slist l : UpdateInfoSList) :
  Export t ribout route peerset uinfo_slist = Ok (true, l) <->
  (IsEncodingBgp ribout = true
   ∧ exists uinfo,
       GetUpdateInfo (base t) ribout route peerset = Some uinfo
       ∧ l = uinfo :: uinfo_slist)
  ∨ (IsEncodingBgp ribout = false
     ∧ exists r tm p peer uinfo,
         route = InetMVpn r
         ∧ type (GetPrefix r) = NativeRoute
         ∧ tree_manager_ t = Some tm
         ∧ tm_deleted tm = false
         ∧ BestPath r = Some p
         ∧ GetPeer p = Some peer
         ∧ IsRegistered ribout peer = true
         ∧ test peerset (GetPeerIndex ribout peer) = true
         ∧ tm_update_info tm r = Some uinfo
         ∧ l = set_target uinfo (GetPeerIndex ribout peer) :: uinfo_slist).
Proof.
  unfold Export. split.
  - destruct (IsEncodingBgp ribout).
    { destruct (GetUpdateInfo _ _ _ _) as [u|]; [|discriminate].
      intros [= <-]. left. split; [done|]. by exists u. }
    destruct route as [r|a]; simpl; [|discriminate].
    destruct (decide (type (GetPrefix r) ≠ NativeRoute)) as [Hty|Hty];
      [discriminate|].
    destruct (tree_manager_ t) as [tm|]; [|discriminate].
    destruct (tm_deleted tm) eqn:Hdel; [discriminate|].
    destruct (BestPath r) as [p|] eqn:Hbest; simpl; [|discriminate].
    destruct (GetPeer p) as [peer|] eqn:Hpeer; [|discriminate].
    destruct (IsRegistered ribout peer) eqn:Hreg; simpl; [|discriminate].
    destruct (test peerset (GetPeerIndex ribout peer)) eqn:Hbit; simpl;
      [|discriminate].
    destruct (tm_update_info tm r) as [u|] eqn:Hu; [|discriminate].
    intros [= <-]. right. split; [done|].
    exists r, tm, p, peer, u. split_and!; try done.
    by destruct (decide (type (GetPrefix r) = NativeRoute)).
  - intros [[-> (u & -> & ->)]
           | [-> (r & tm & p & peer & u & -> & Hty & Htm & Hdel & Hbest
                  & Hpeer & Hreg & Hbit & Hu & ->)]]; [done|].
    simpl. rewrite decide_False by (by intros []).
    rewrite Htm, Hdel, Hbest. simpl.
    by rewrite Hpeer, Hreg, Hbit, Hu.
Qed.

(** X13. On a channel without the generic encoding, the peer set
    matters to [Export] through one bit only, that of the peer of the
    best path: two peer sets that agree on it give the same result. *)
Theorem Export_peerset_bit (t : InetMVpnTable) (ribout : RibOut)
    (route : BgpRoute) (peerset peerset' : RibPeerSet)
    (uinfo_slist : UpdateInfoSList) :
  IsEncodingBgp ribout = false ->
  (forall r p peer,
     route = InetMVpn r -> BestPath r = Some p -> GetPeer p = Some peer ->
     test peerset (GetPeerIndex ribout peer)
       = test peerset' (GetPeerIndex ribout peer)) ->
  Export t ribout route peerset uinfo_slist
    = Export t ribout route peerset' uinfo_slist.
Proof.
  intros Hbgp Hbit. unfold Export. rewrite Hbgp.
  destruct route as [r|a]; simpl; [|done].
  destruct (decide (type (GetPrefix r) ≠ NativeRoute)); [done|].
  destruct (tree_manager_ t) as [tm|]; [|done].
  destruct (tm_deleted tm); [done|].
  destruct (BestPath r) as [p|] eqn:Hbest; simpl; [|done].
  destruct (GetPeer p) as [peer|] eqn:Hpeer; [|done].
  by rewrite (Hbit r p peer eq_refl Hbest Hpeer).
Qed.

End ExportMore.

(** * Further properties of the tree manager life cycle *)

Section LifecycleMore.
Context `{Collaborators}.

Lemma transition_base (t t' : InetMVpnTable) (tr : Transition) :
  transition t tr = Ok t' -> base t' = base t.
Proof.
  destruct tr; simpl; unfold CreateTreeManager, DestroyTreeManager;
    destruct (IsDefault (base t)) as [[|]|]; simpl; try discriminate;
    try (by intros [= <-]).
  - destruct (bool_decide (tree_manager_ t = None)); simpl;
      [by intros [= <-]|discriminate].
  - destruct (tree_manager_ t); simpl; [by intros [= <-]|discriminate].
Qed.

(** X14. Creating the tree manager of a non-default table that has none
    and destroying it again gives back the table; destroying a manager
    that is absent dereferences NULL, as does either transition on a
    table that has no routing instance yet; and no run of transitions
    touches the routes, the name or the routing instance of the
    table. *)
Theorem TreeManager_create_destroy (t : InetMVpnTable) :
  (IsDefault (base t) = Ok false -> tree_manager_ t = None ->
   CreateTreeManager t ≫= DestroyTreeManager = Ok t
   ∧ DestroyTreeManager t = Fault NullDeref)
  ∧ (rtinstance_ (base t) = None ->
     CreateTreeManager t = Fault NullDeref
     ∧ DestroyTreeManager t = Fault NullDeref)
  ∧ (forall trs t', transitions t trs = Ok t' -> base t' = base t).
Proof.
  split_and!.
  - intros Hd Htm.
    rewrite (CreateTreeManager_absent t Hd Htm),
      (DestroyTreeManager_absent t Hd Htm). simpl.
    split; [|done].
    erewrite DestroyTreeManager_present; [|exact Hd|reflexivity].
    destruct t as [b tm]. simpl in *. by subst tm.
  - intros Hri. unfold CreateTreeManager, DestroyTreeManager, IsDefault.
    by rewrite Hri.
  - intros trs. revert t. induction trs as [|tr trs IH]; intros t t'.
    + by intros [= <-].
    + simpl. destruct (transition t tr) as [t1|] eqn:Htr; [|discriminate].
      simpl. intros Hrun. rewrite (IH _ _ Hrun).
      by eapply transition_base.
Qed.

(** X15. For a non-default table a run of transitions succeeds exactly
    when creation and destruction take turns, beginning with a creation
    if the table has no manager and with a destruction if it has one;
    the other runs fail the assertion of [CreateTreeManager] or
    dereference NULL in [DestroyTreeManager]. *)
Theorem TreeManager_transitions (trs : list Transition)
    (t : InetMVpnTable) :
  IsDefault (base t) = Ok false ->
  ((exists t', transitions t trs = Ok t')
   <-> alternates (has_tree_manager t) trs = true)
  ∧ forall k, transitions t trs = Fault k ->
              k = AssertTreeManager ∨ k = NullDeref.
Proof.
  revert t. induction trs as [|tr trs IH]; intros t Hd.
  { simpl. split; [|discriminate]. split; [done|by eexists]. }
  unfold has_tree_manager, GetTreeManager in *.
  destruct tr; simpl; destruct (tree_manager_ t) as [tm|] eqn:Htm; simpl.
  - rewrite (CreateTreeManager_present t tm Hd Htm). simpl.
    split; [|intros k [= <-]; by left].
    split; [by intros [t' ?]|discriminate].
  - rewrite (CreateTreeManager_absent t Hd Htm). simpl.
    specialize (IH (set_tree_manager t
                      (Some (Initialize (Create_McastTreeManager (base t)))))
                  Hd).
    exact IH.
  - rewrite (DestroyTreeManager_present t tm Hd Htm). simpl.
    exact (IH (set_tree_manager t None) Hd).
  - rewrite (DestroyTreeManager_absent t Hd Htm). simpl.
    split; [|intros k [= <-]; by right].
    split; [by intros [t' ?]|discriminate].
Qed.

End LifecycleMore.

(** * Allocation and lookup *)

Section Lookup.
Context `{Collaborators}.

(** X16. The entry [AllocEntry] builds for a key has the key's prefix,
    no paths and no deletion mark; added to a partition in which
    [TableFind] finds nothing for the key, it is what [TableFind] then
    finds for the key, while keys with another prefix are found as
    before. *)
Theorem TableFind_AllocEntry (rtp : DBTablePartition) (this : RoutePtr)
    (key : RequestKey) :
  TableFind rtp key = None ->
  let entry := AllocEntry this key in
  GetPrefix entry = prefix key
  ∧ rt_paths entry = []
  ∧ IsDeleted entry = false
  ∧ TableFind (Add rtp entry) key = Some entry
  ∧ forall key', prefix key' ≠ prefix key ->
      TableFind (Add rtp entry) key' = TableFind rtp key'.
Proof.
  intros Hnone entry. unfold TableFind in *. simpl in *.
  split_and!; try done.
  - by apply Find_Add.
  - intros key' Hne. unfold Find, Add. simpl.
    apply find_first_app_ne. simpl. congruence.
Qed.

End Lookup.

(** * Replication and export together *)

Section ReplicatedExport.
Context `{Collaborators}.

(** X17. Replication never makes a [NativeRoute]: in a table that
    replication builds no route is one, so that [Export] on a channel
    without the generic encoding is not-sent for each of its routes,
    whatever the tree manager and the peer set. *)
Theorem Replicated_not_native (t : InetMVpnTable) :
  Replicated t ->
  forall i rtp r,
    partitions (base t) !! i = Some rtp -> r ∈ tree rtp ->
    type (GetPrefix r) ≠ NativeRoute
    ∧ forall t0 ribout peerset uinfo_slist,
        IsEncodingBgp ribout = false ->
        Export t0 ribout (InetMVpn r) peerset uinfo_slist
          = Ok (false, uinfo_slist).
Proof.
  intros Hbuilt.
  assert (forall i rtp r,
    partitions (base t) !! i = Some rtp -> r ∈ tree rtp ->
    type (GetPrefix r) ≠ NativeRoute) as Htypes.
  { induction Hbuilt as [t Hempty | t src_table src_rt src_path community
                                     fresh res t' _ IH Hrun].
    - intros i rtp r Hl Hr. rewrite Forall_forall in Hempty.
      rewrite (Hempty rtp) in Hr by (by eapply list_elem_of_lookup_2).
      by apply elem_of_nil in Hr.
    - destruct res as [dest|].
      2:{ by rewrite (RouteReplicate_None_inv _ _ _ _ _ _ _ Hrun). }
      destruct (RouteReplicate_Some_inv _ _ _ _ _ _ _ _ Hrun)
        as (_ & mroute0 & _ & _ & _ & _ & _ & _ & _ & Hrt0 & Hnative & _).
      destruct (RouteReplicate_Some_full _ _ _ _ _ _ _ _ Hrun)
        as (is_default & mroute & rtp & rtp' & d & _ & Hrt & Hl & -> & _
            & Hk & _ & _ & _ & _ & _ & Helem & _).
      rewrite Hrt in Hrt0. injection Hrt0 as <-.
      intros i rtp'' r Hi Hr. simpl in Hi.
      destruct (decide (i = Z.to_nat (Hash mroute))) as [->|Hne].
      + rewrite list_lookup_insert_eq in Hi by (by eapply lookup_lt_Some).
        injection Hi as <-.
        destruct (Helem r Hr) as [->|Hold]; [by rewrite Hk|].
        by apply (IH (Z.to_nat (Hash mroute)) rtp).
      + rewrite list_lookup_insert_ne in Hi by done.
        by apply (IH i rtp''). }
  intros i rtp r Hl Hr. specialize (Htypes i rtp r Hl Hr).
  split; [done|]. intros t0 ribout peerset uinfo_slist Hbgp.
  unfold Export. rewrite Hbgp. simpl. by rewrite decide_True.
Qed.

End ReplicatedExport.

Section Relabelled.
Context `{Collaborators}.

(** X18. [RouteReplicate] compares the attribute of the path it finds
    and nothing else: once a source path is replicated, replicating it
    again with other flags or another label, and the attribute and
    community as they were, returns the same route and leaves the table
    as it is, the replicated path still with the flags and the label of
    the first call. *)
Theorem RouteReplicate_relabelled (t : InetMVpnTable) (src_table : BgpTable)
    (src_rt : BgpRoute) (src_path : BgpPath) (community : ExtCommunityPtr)
    (fresh : RoutePtr) (dest : RoutePtr) (t' : InetMVpnTable) :
  TableUnique t ->
  RouteReplicate t src_table src_rt src_path community fresh
    = Ok (Some dest, t') ->
  forall flags label fresh',
    RouteReplicate t' src_table src_rt (relabelled src_path flags label)
      community fresh'
    = Ok (Some dest, t').
Proof.
  intros Huniq Hrun flags label fresh'.
  destruct (RouteReplicate_Some_inv _ _ _ _ _ _ _ _ Hrun)
    as (is_default & mroute & idx & rtp & dest_route & rtp' & Hdefault
        & Hfam & Hsrc & -> & Hnative & Hpart & -> & Hfind & Hthis & Hdel
        & Helem & Hpaths).
  simpl in *.
  set (mprefix := set_route_distinguisher (GetPrefix mroute) _) in *.
  set (new_attr := ReplaceExtCommunityAndLocate _ _) in *.
  set (rp := SetReplicateInfo _ _ _) in *.
  destruct (GetTablePartition_Ok _ _ _ _ Hpart) as [_ Hl].
  assert (rtp ∈ partitions (base t)) as Hrtp
    by (by eapply list_elem_of_lookup_2).
  assert (forall a b c d,
    (length (filter (secondary_match a b c d)
               match Find rtp mprefix with
               | Some r => rt_paths r
               | None => []
               end) <= 1)%nat) as Hpaths0.
  { intros a b c d. destruct (Find rtp mprefix) as [r|] eqn:Hr;
      [|simpl; lia].
    destruct (Find_prefix _ _ _ Hr) as [_ Hin].
    apply (Huniq rtp r Hrtp Hin). }
  destruct (replicated_paths _ (rt_paths dest_route) rp (rt_this mroute)
              (GetSource src_path) (GetPeer src_path) (GetPathId src_path)
              new_attr Hpaths0) as (_ & _ & p & Hsec & Hattr);
    [by repeat split|done|exact Hpaths|].
  rewrite <- Hthis.
  apply (RouteReplicate_unchanged _ src_table mroute
           (relabelled src_path flags label) community fresh' is_default
           idx rtp' dest_route p); try done.
  by apply GetTablePartition_set_partition with (rtp := rtp).
Qed.

End Relabelled.

(** * The further properties on the sample tables *)

Section MoreRuns.
#[local] Existing Instance Sample.collaborators.

Lemma RouteReplicate_null_witness :
  RouteReplicate Sample.blue_table (base Sample.blue_table)
    (InetMVpn Sample.src_route) Sample.src_path Sample.C1 200
    = Ok (None, Sample.blue_table)
  ∧ ((IsDefault (base Sample.blue_table) = Ok false
      ∧ IsDefault (base Sample.blue_table) = Ok false)
     ∨ exists mroute,
         InetMVpn Sample.src_route = InetMVpn mroute
         ∧ type (GetPrefix mroute) = NativeRoute).
Proof.
  split; [reflexivity|].
  apply (RouteReplicate_null Sample.blue_table (base Sample.blue_table)
           (InetMVpn Sample.src_route) Sample.src_path Sample.C1 200
           Sample.blue_table).
  reflexivity.
Defined.

Lemma RouteReplicate_returns_witness :
  exists r t',
    RouteReplicate Sample.master_table (base Sample.blue_table)
      (InetMVpn Sample.src_route) Sample.src_path Sample.C1 200
      = Ok (r, t')
    ∧ TableShaped (base t').
Proof.
  apply (RouteReplicate_returns Sample.master_table
           (base Sample.blue_table) Sample.src_route Sample.src_path
           Sample.C1 200);
    [reflexivity | reflexivity | reflexivity | by eexists | by eexists].
Defined.

Lemma RouteReplicate_frame_witness :
  RouteReplicate Sample.master_table (base Sample.blue_table)
    (InetMVpn Sample.src_route) Sample.src_path Sample.C1 200
    = Ok (Some 200, Sample.master_C1)
  ∧ exists d,
      FindRoute Sample.master_C1 (GetPrefix d) = Some d
      ∧ rt_this d = 200
      ∧ (forall k, k ≠ GetPrefix d ->
           FindRoute Sample.master_C1 k = FindRoute Sample.master_table k)
      ∧ (forall j, j ≠ Z.to_nat (Hash d) ->
           partitions (base Sample.master_C1) !! j
             = partitions (base Sample.master_table) !! j).
Proof.
  assert (RouteReplicate Sample.master_table (base Sample.blue_table)
            (InetMVpn Sample.src_route) Sample.src_path Sample.C1 200
          = Ok (Some 200, Sample.master_C1)) as Hrun by reflexivity.
  split; [exact Hrun|].
  apply (RouteReplicate_frame Sample.master_table (base Sample.blue_table)
           (InetMVpn Sample.src_route) Sample.src_path Sample.C1 200
           (Some 200) Sample.master_C1 Hrun).
  reflexivity.
Defined.

Lemma RouteReplicate_reuses_route_witness :
  RouteReplicate Scenario.master_marked (base Sample.blue_table)
    (InetMVpn Sample.src_route) Sample.src_path Sample.C2 201
    = Ok (Some 200, Scenario.master_revived)
  ∧ exists d,
      FindRoute Scenario.master_revived (GetPrefix d) = Some d
      ∧ rt_this d = 200
      ∧ IsDeleted d = false
      ∧ match FindRoute Scenario.master_marked (GetPrefix d) with
        | Some r => 200 = rt_this r
        | None => 200 = 201
        end.
Proof.
  split; [reflexivity|].
  apply (RouteReplicate_reuses_route Scenario.master_marked
           (base Sample.blue_table) (InetMVpn Sample.src_route)
           Sample.src_path Sample.C2 201 200 Scenario.master_revived).
  reflexivity.
Defined.

Lemma RouteReplicate_keeps_paths_witness :
  RouteReplicate Scenario.master_primary (base Sample.blue_table)
    (InetMVpn Sample.src_route) Sample.src_path Sample.C1 201
    = Ok (Some 200, Scenario.master_primary_C1)
  ∧ exists d,
      FindRoute Scenario.master_primary_C1 (GetPrefix d) = Some d
      ∧ rt_this d = 200
      ∧ forall q,
          q ∈ match FindRoute Scenario.master_primary (GetPrefix d) with
              | Some r => rt_paths r
              | None => []
              end ->
          secondary q = None -> q ∈ rt_paths d.
Proof.
  assert (RouteReplicate Scenario.master_primary (base Sample.blue_table)
            (InetMVpn Sample.src_route) Sample.src_path Sample.C1 201
          = Ok (Some 200, Scenario.master_primary_C1)) as Hrun
    by reflexivity.
  split; [exact Hrun|].
  destruct (RouteReplicate_keeps_paths Scenario.master_primary
              (base Sample.blue_table) (InetMVpn Sample.src_route)
              Sample.src_path Sample.C1 201 200 Scenario.master_primary_C1
              Hrun) as (d & Hfind & Hthis & _ & _ & Hprimary & _).
  exists d. split; [exact Hfind|]. split; [exact Hthis|]. exact Hprimary.
Defined.

Lemma RouteReplicate_notifies_witness :
  RouteReplicate Sample.master_table (base Sample.blue_table)
    (InetMVpn Sample.src_route) Sample.src_path Sample.C1 200
    = Ok (Some 200, Sample.master_C1)
  ∧ exists d rtp rtp',
      partitions (base Sample.master_table) !! Z.to_nat (Hash d) = Some rtp
      ∧ partitions (base Sample.master_C1) !! Z.to_nat (Hash d) = Some rtp'
      ∧ rt_this d = 200
      ∧ (change_list rtp' = change_list rtp
         ∨ change_list rtp' = change_list rtp ++ [200]).
Proof.
  assert (RouteReplicate Sample.master_table (base Sample.blue_table)
            (InetMVpn Sample.src_route) Sample.src_path Sample.C1 200
          = Ok (Some 200, Sample.master_C1)) as Hrun by reflexivity.
  split; [exact Hrun|].
  destruct (RouteReplicate_notifies Sample.master_table
              (base Sample.blue_table) (InetMVpn Sample.src_route)
              Sample.src_path Sample.C1 200 200 Sample.master_C1 Hrun)
    as (d & rtp & rtp' & Hl & Hl' & _ & Hthis & Hchg & _).
  exists d, rtp, rtp'. split; [exact Hl|]. split; [exact Hl'|].
  split; [exact Hthis|exact Hchg].
Defined.

Lemma RouteReplicate_partition_witness :
  RouteReplicate Sample.master_table (base Sample.blue_table)
    (InetMVpn Sample.src_route) Sample.src_path Sample.C1 200
    = Ok (Some 200, Sample.master_C1)
  ∧ exists rtp' d,
      partitions (base Sample.master_C1)
        !! Z.to_nat (Hash Sample.src_route) = Some rtp'
      ∧ Find rtp' (GetPrefix d) = Some d
      ∧ rt_this d = 200
      ∧ Hash d = Hash Sample.src_route.
Proof.
  split; [reflexivity|].
  apply (RouteReplicate_partition Sample.master_table
           (base Sample.blue_table) Sample.src_route Sample.src_path
           Sample.C1 200 200 Sample.master_C1).
  reflexivity.
Defined.

Lemma Export_pushes_one_witness :
  Export Sample.blue_live Sample.xmpp_ribout
    (InetMVpn Sample.native_route') Sample.peerset []
    = Ok (true, [mkUpdateInfo Sample.attr0 4])
  ∧ ((true = false ∧ [mkUpdateInfo Sample.attr0 4] = [])
     ∨ (true = true
        ∧ exists uinfo, [mkUpdateInfo Sample.attr0 4] = uinfo :: [])).
Proof.
  split; [reflexivity|].
  apply (Export_pushes_one Sample.blue_live Sample.xmpp_ribout
           (InetMVpn Sample.native_route') Sample.peerset []
           [mkUpdateInfo Sample.attr0 4] true).
  reflexivity.
Defined.

Lemma Export_peerset_bit_witness :
  Export Sample.blue_live Sample.xmpp_ribout
    (InetMVpn Sample.native_route') 4 []
  = Export Sample.blue_live Sample.xmpp_ribout
      (InetMVpn Sample.native_route') 6 [].
Proof.
  apply (Export_peerset_bit Sample.blue_live Sample.xmpp_ribout
           (InetMVpn Sample.native_route') 4 6 []); [reflexivity|].
  intros r p peer [= <-] [= <-] [= <-]. reflexivity.
Defined.

Lemma TreeManager_transitions_witness :
  ((exists t', transitions Sample.blue_table [Create; Destroy; Create]
               = Ok t')
   <-> alternates (has_tree_manager Sample.blue_table)
         [Create; Destroy; Create] = true)
  ∧ forall k,
      transitions Sample.blue_table [Create; Destroy; Create] = Fault k ->
      k = AssertTreeManager ∨ k = NullDeref.
Proof.
  apply (TreeManager_transitions [Create; Destroy; Create]
           Sample.blue_table).
  reflexivity.
Defined.

Lemma TableFind_AllocEntry_witness :
  TableFind Scenario.empty_partition Scenario.native_key = None
  ∧ TableFind (Add Scenario.empty_partition
                 (AllocEntry 300 Scenario.native_key)) Scenario.native_key
    = Some (AllocEntry 300 Scenario.native_key).
Proof.
  assert (TableFind Scenario.empty_partition Scenario.native_key = None)
    as Hnone by reflexivity.
  split; [exact Hnone|].
  destruct (TableFind_AllocEntry Scenario.empty_partition 300
              Scenario.native_key Hnone) as (_ & _ & _ & Hfind & _).
  exact Hfind.
Defined.

Lemma Replicated_not_native_witness :
  Replicated Sample.master_C1
  ∧ type (GetPrefix (Sample.dest_route
                       [Sample.replicated Sample.src_path Sample.C1]))
    ≠ NativeRoute.
Proof.
  assert (Replicated Sample.master_C1) as Hbuilt.
  { apply (Replicated_step Sample.master_table (base Sample.blue_table)
             (InetMVpn Sample.src_route) Sample.src_path Sample.C1 200
             (Some 200) Sample.master_C1);
      [apply Replicated_empty; repeat constructor | reflexivity]. }
  split; [exact Hbuilt|].
  apply (Replicated_not_native Sample.master_C1 Hbuilt 3%nat
           (mkPartition
              [Sample.dest_route
                 [Sample.replicated Sample.src_path Sample.C1]] [200])
           (Sample.dest_route
              [Sample.replicated Sample.src_path Sample.C1]));
    [reflexivity | apply list_elem_of_here].
Defined.

Lemma RouteReplicate_relabelled_witness :
  RouteReplicate Sample.master_table (base Sample.blue_table)
    (InetMVpn Sample.src_route) Sample.src_path Sample.C1 200
    = Ok (Some 200, Sample.master_C1)
  ∧ RouteReplicate Sample.master_C1 (base Sample.blue_table)
      (InetMVpn Sample.src_route) (relabelled Sample.src_path 1 17)
      Sample.C1 201
    = Ok (Some 200, Sample.master_C1).
Proof.
  assert (RouteReplicate Sample.master_table (base Sample.blue_table)
            (InetMVpn Sample.src_route) Sample.src_path Sample.C1 200
          = Ok (Some 200, Sample.master_C1)) as Hrun by reflexivity.
  split; [exact Hrun|].
  apply (RouteReplicate_relabelled Sample.master_table
           (base Sample.blue_table) (InetMVpn Sample.src_route)
           Sample.src_path Sample.C1 200 200 Sample.master_C1);
    [apply TableUnique_empty; repeat constructor | exact Hrun].
Defined.

Lemma RouteReplicate_faults_witness :
  0 < PartitionCount
  ∧ family Scenario.inet_table ≠ INETMVPN
  ∧ RouteReplicate Sample.master_table Scenario.inet_table
      (InetMVpn Sample.src_route) Sample.src_path Sample.C1 200
    = Fault AssertFamily.
Proof.
  assert (0 < PartitionCount) as Hcount by reflexivity.
  assert (family Scenario.inet_table ≠ INETMVPN) as Hfam
    by discriminate.
  split; [exact Hcount|]. split; [exact Hfam|].
  exact (proj1 (RouteReplicate_faults Sample.master_table
                  Scenario.inet_table (InetMVpn Sample.src_route)
                  Sample.src_path Sample.C1 200 Hcount) Hfam).
Defined.

End MoreRuns.
